(** * ChatModel: a client for a chat-completion endpoint (src/chatmodel.ts)

    A shallow embedding of [ChatModel.extractChoiceText], [ChatModel.query]
    and [ChatModel.completions], with the fragment of JavaScript they rely
    on (property reads, optional chaining, truthiness, [typeof], object
    spread, [JSON.stringify], string conversion), and the properties of the
    client proved over it. *)

From Stdlib Require Import ZArith Lia Ascii DecimalString.
From stdpp Require Import base list strings gmap.

Set Warnings "-register-all,-clear-no-such-hyp".

Local Open Scope string_scope.
Local Open Scope Z_scope.

(** ** JavaScript values *)

Module JS.

(** A number is kept by its decimal expansion [m * 10^e]; the client does no
    arithmetic on the numbers of a payload: it tests them for truthiness,
    asks their [typeof] and prints them. *)
Inductive number : Type :=
| NaN
| Infinity (negative : bool)
| Dec (m e : Z).

(** The values a parsed JSON document can hold, and [undefined].  The
    properties of an object are listed in enumeration order; a property
    read takes the first binding of a name.  A character of a string stands
    for one code unit, so that [String.length] is the [length] of
    JavaScript. *)
Inductive value : Type :=
| VUndefined
| VNull
| VBool (b : bool)
| VNum (n : number)
| VStr (s : string)
| VArr (items : list value)
| VObj (props : list (string * value)).

Definition props : Type := list (string * value).

(** *** Failures *)

(** Everything the client catches is an [Error] instance: its own
    [new Error(..)], the runtime's [TypeError] and [SyntaxError], and the
    rejections of the transport. *)
Inductive exn : Type :=
| Error (msg : string)
| TypeError (msg : string)
| SyntaxError (msg : string).

(** [err.message] *)
Definition message (e : exn) : string :=
  match e with Error m | TypeError m | SyntaxError m => m end.

Inductive outcome (A : Type) : Type :=
| Return (a : A)
| Throw (e : exn).
Arguments Return {A} a.
Arguments Throw {A} e.

Definition obind {A B} (x : outcome A) (k : A -> outcome B) : outcome B :=
  match x with Return a => k a | Throw e => Throw e end.

(** *** Printing numbers *)

Definition nat_digits (n : nat) : string := NilZero.string_of_uint (Nat.to_uint n).
Definition Z_digits (z : Z) : string := NilZero.string_of_int (Z.to_int z).

Fixpoint zeros (n : nat) : string :=
  match n with O => EmptyString | S n' => String "0"%char (zeros n') end.

(** The digits of [s] without its trailing zeros, and how many were cut. *)
Fixpoint cut_zeros (rev_digits : list ascii) (cut : nat) : list ascii * nat :=
  match rev_digits with
  | "0"%char :: ds => cut_zeros ds (S cut)
  | _ => (rev_digits, cut)
  end.

Definition substr (from len : nat) (s : string) : string := String.substring from len s.

(** Number::toString of ECMAScript, on a finite non-zero magnitude with
    significant digits [digits] (k of them) and decimal point after [n]
    digits. *)
Definition place_digits (digits : string) (n : Z) : string :=
  let k := Z.of_nat (String.length digits) in
  if (k <=? n) && (n <=? 21) then
    digits +:+ zeros (Z.to_nat (n - k))
  else if (0 <? n) && (n <=? 21) then
    substr 0 (Z.to_nat n) digits +:+ "." +:+
    substr (Z.to_nat n) (Z.to_nat (k - n)) digits
  else if (-6 <? n) && (n <=? 0) then
    "0." +:+ zeros (Z.to_nat (- n)) +:+ digits
  else
    let exponent := (if n - 1 <? 0 then "-" else "+") +:+ Z_digits (Z.abs (n - 1)) in
    if k =? 1 then digits +:+ "e" +:+ exponent
    else substr 0 1 digits +:+ "." +:+
         substr 1 (Z.to_nat (k - 1)) digits +:+ "e" +:+ exponent.

Definition Number_toString (x : number) : string :=
  match x with
  | NaN => "NaN"
  | Infinity negative => if negative then "-Infinity" else "Infinity"
  | Dec m e =>
    if m =? 0 then "0"
    else
      let all := String.list_ascii_of_string (Z_digits (Z.abs m)) in
      let '(kept, cut) := cut_zeros (rev all) 0 in
      let digits := String.string_of_list_ascii (rev kept) in
      (if m <? 0 then "-" else EmptyString) +:+
      place_digits digits (Z.of_nat (String.length digits) + (e + Z.of_nat cut))
  end.

Definition is_finite (x : number) : bool :=
  match x with Dec _ _ => true | _ => false end.

(** *** Objects and property reads *)

(** The first binding of [k] among the properties [ps]. *)
Fixpoint own (ps : props) (k : string) : option value :=
  match ps with
  | [] => None
  | (k', v) :: ps' => if String.eqb k k' then Some v else own ps' k
  end.

(** [o[k] = v] on an object under construction: an existing property keeps
    its place, a new one goes last (names that are array indices, which
    JavaScript enumerates first, are none of the names the client sets). *)
Fixpoint obj_set (o : props) (k : string) (v : value) : props :=
  match o with
  | [] => [(k, v)]
  | (k', v') :: o' =>
    if String.eqb k k' then (k, v) :: o' else (k', v') :: obj_set o' k v
  end.

Definition VInt (z : Z) : value := VNum (Dec z 0).

Definition indexed {A} (f : A -> value) (l : list A) : props :=
  imap (fun i x => (nat_digits i, f x)) l.

(** The own enumerable properties of a value: those of an object, the
    elements of an array, the characters of a string. *)
Definition enumerable (v : value) : props :=
  match v with
  | VObj ps => ps
  | VArr items => indexed id items
  | VStr s => indexed (fun c => VStr (String c EmptyString)) (String.list_ascii_of_string s)
  | _ => []
  end.

(** The own properties of a value.  Members inherited from a prototype are
    methods, which are no values of this model; none of them bears a name
    the client reads ([message], [delta], [content], [text], [error],
    [choices]). *)
Definition own_properties (v : value) : props :=
  match v with
  | VArr items => (enumerable v ++ [("length", VInt (Z.of_nat (length items)))])%list
  | VStr s => (enumerable v ++ [("length", VInt (Z.of_nat (String.length s)))])%list
  | _ => enumerable v
  end.

Definition nullish (v : value) : bool :=
  match v with VUndefined | VNull => true | _ => false end.

(** What [v.k] evaluates to when [v] is neither [null] nor [undefined]. *)
Definition member (v : value) (k : string) : value :=
  default VUndefined (own (own_properties v) k).

(** [typeof v] *)
Definition typeof (v : value) : string :=
  match v with
  | VUndefined => "undefined"
  | VNull | VArr _ | VObj _ => "object"
  | VBool _ => "boolean"
  | VNum _ => "number"
  | VStr _ => "string"
  end.

(** [v.k] *)
Definition Get (v : value) (k : string) : outcome value :=
  if nullish v then
    Throw (TypeError ("Cannot read properties of " +:+
                      (match v with VNull => "null" | _ => "undefined" end) +:+
                      " (reading '" +:+ k +:+ "')"))
  else Return (member v k).

(** [v?.k] *)
Definition OptGet (v : value) (k : string) : outcome value :=
  if nullish v then Return VUndefined else Get v k.

(** [a ?? b]; [b] is evaluated only when [a] is [null] or [undefined]. *)
Definition coalesce (a b : outcome value) : outcome value :=
  obind a (fun x => if nullish x then b else Return x).

(** [Array.isArray(v)] *)
Definition Array_isArray (v : value) : bool :=
  match v with VArr _ => true | _ => false end.

(** The elements a [for (const x of v)] loop visits. *)
Definition iterate (v : value) : outcome (list value) :=
  match v with
  | VArr items => Return items
  | VStr s => Return (map (fun c => VStr (String c EmptyString)) (String.list_ascii_of_string s))
  | _ => Throw (TypeError (typeof v +:+ " is not iterable"))
  end.

(** ToBoolean: what [if (v)], [!v] and [v && ..] test. *)
Definition truthy (v : value) : bool :=
  match v with
  | VUndefined | VNull => false
  | VBool b => b
  | VNum NaN => false
  | VNum (Infinity _) => true
  | VNum (Dec m _) => negb (m =? 0)
  | VStr s => negb (String.eqb s EmptyString)
  | VArr _ | VObj _ => true
  end.

(** Object spread [{...target, ...source}]: every own enumerable property
    of [source] is read and defined on the object under construction, in
    order (CopyDataProperties). *)
Definition spread (target : props) (source : value) : props :=
  let from := enumerable source in
  fold_left (fun o k => obj_set o k (default VUndefined (own from k)))
            (map fst from) target.

(** *** String conversion *)

Definition mapM {A B} (f : A -> outcome B) : list A -> outcome (list B) :=
  fix go (l : list A) : outcome (list B) :=
    match l with
    | [] => Return []
    | x :: l' => obind (f x) (fun y => obind (go l') (fun ys => Return (y :: ys)))
    end.

(** ToString, as the [Error] constructor applies it to its argument.  An
    array is joined with commas, [null] and [undefined] elements giving
    nothing; an object prints as [[object Object]] unless it has a property
    [toString] of its own, which in a JSON value is no function, so that
    the conversion has no primitive to return. *)
Fixpoint ToString (v : value) : outcome string :=
  match v with
  | VUndefined => Return "undefined"
  | VNull => Return "null"
  | VBool b => Return (if b then "true" else "false")
  | VNum n => Return (Number_toString n)
  | VStr s => Return s
  | VArr items =>
    obind (mapM (fun x => if nullish x then Return EmptyString else ToString x) items)
          (fun parts => Return (String.concat "," parts))
  | VObj ps =>
    match own ps "toString" with
    | None => Return "[object Object]"
    | Some _ => Throw (TypeError "Cannot convert object to primitive value")
    end
  end.

(** *** JSON.stringify *)

Definition hex_digit (n : N) : ascii :=
  default "0"%char (String.get (N.to_nat n) "0123456789abcdef").

Definition dquote : ascii := ascii_of_nat 34.
Definition backslash : ascii := ascii_of_nat 92.
Definition escape (s : string) : string := String backslash s.

(** One code unit inside a JSON string literal (QuoteJSONString). *)
Definition quote_char (c : ascii) : string :=
  let n := N_of_ascii c in
  if (n =? 8)%N then escape "b"
  else if (n =? 9)%N then escape "t"
  else if (n =? 10)%N then escape "n"
  else if (n =? 12)%N then escape "f"
  else if (n =? 13)%N then escape "r"
  else if (n =? 34)%N then escape (String c EmptyString)
  else if (n =? 92)%N then escape (String c EmptyString)
  else if (n <? 32)%N then
    escape ("u00" +:+ String (hex_digit (n / 16))
                        (String (hex_digit (n mod 16)) EmptyString))
  else String c EmptyString.

Definition quote (s : string) : string :=
  String dquote
    (String.concat EmptyString (map quote_char (String.list_ascii_of_string s))
     +:+ String dquote EmptyString).

Definition filter_map {A B} (f : A -> option B) : list A -> list B :=
  fix go (l : list A) : list B :=
    match l with
    | [] => []
    | x :: l' => match f x with Some y => y :: go l' | None => go l' end
    end.

(** [JSON.stringify(v)], [None] standing for the [undefined] it returns on
    [undefined].  Inside an array [undefined] prints as [null]; a property
    whose value is [undefined] is left out.  A non-finite number prints as
    [null]. *)
Fixpoint JSON_stringify (v : value) : option string :=
  match v with
  | VUndefined => None
  | VNull => Some "null"
  | VBool b => Some (if b then "true" else "false")
  | VNum n => Some (if is_finite n then Number_toString n else "null")
  | VStr s => Some (quote s)
  | VArr items =>
    Some ("[" +:+
          String.concat "," (map (fun x => default "null" (JSON_stringify x)) items)
          +:+ "]")
  | VObj ps =>
    Some ("{" +:+
          String.concat ","
            (filter_map (fun kv => match JSON_stringify (snd kv) with
                                   | Some s => Some (quote (fst kv) +:+ ":" +:+ s)
                                   | None => None
                                   end) ps)
          +:+ "}")
  end.

(** [s.slice(0, n)] *)
Definition slice0 (n : nat) (s : string) : string := String.substring 0 n s.

End JS.
Import JS.

(** ** The host: endpoint, console, telemetry *)

(** What [axios.post(url, body, {headers})] sends. *)
Record request : Type := {
  url : string;
  body : value;
  headers : props
}.

(** The part of an axios response that [query] reads.  The status is an
    HTTP status code, an integer. *)
Record response : Type := {
  status : Z;
  statusText : string;
  data : value
}.

Inductive event : Type :=
| EMark (name : string)                  (* performance.mark *)
| EMeasure (name startMark : string)     (* performance.measure *)
| EAdmission                             (* the rate limiter lets one unit of work run *)
| EPost (rq : request)                   (* an HTTP request is issued *)
| EWarn (msg : string).                  (* console.warn *)

(** The world a call runs in: what [JSON.parse] makes of a string, the
    outcome of [axios.post] on the n-th request (the response it resolves
    with or, as a [Throw], its rejection: a network failure, or an answer
    whose status axios does not accept, which as [query] calls it is every
    status outside 200-299), and the events so far, oldest first. *)
Record world : Type := {
  JSON_parse : string -> outcome value;
  endpoint : nat -> request -> outcome response;
  log : list event
}.

Definition record (e : event) (w : world) : world :=
  {| JSON_parse := JSON_parse w; endpoint := endpoint w; log := log w ++ [e] |}.

Definition is_post (e : event) : bool := match e with EPost _ => true | _ => false end.
Definition is_admission (e : event) : bool := match e with EAdmission => true | _ => false end.
Definition is_warn (e : event) : bool := match e with EWarn _ => true | _ => false end.

Definition posts (w : world) : nat := length (List.filter is_post (log w)).
Definition admissions (w : world) : nat := length (List.filter is_admission (log w)).
Definition warnings (w : world) : list event := List.filter is_warn (log w).

(** ** Computations that may throw and act on the world *)

Class Monad (m : Type -> Type) : Type := {
  ret : forall {A}, A -> m A;
  bind : forall {A B}, m A -> (A -> m B) -> m B
}.

Notation "x <- c1 ;; c2" := (bind c1 (fun x => c2))
  (at level 100, c1 at next level, right associativity).
Notation "c1 ;;; c2" := (bind c1 (fun _ => c2))
  (at level 100, right associativity).

#[export] Instance outcome_monad : Monad outcome := {
  ret := @Return;
  bind := @obind
}.

Definition M (A : Type) : Type := world -> outcome A * world.

Definition M_bind {A B} (c : M A) (k : A -> M B) : M B :=
  fun w => match c w with
           | (Return a, w') => k a w'
           | (Throw e, w') => (Throw e, w')
           end.

#[export] Instance M_monad : Monad M := {
  ret := fun A (a : A) (w : world) => (Return a, w);
  bind := @M_bind
}.

(** A computation without effect on the world. *)
Definition pure {A} (x : outcome A) : M A := fun w => (x, w).

(** [throw e] *)
Definition throw {A} (e : exn) : M A := pure (Throw e).

(** [try { c } catch (err) { handler }] *)
Definition try_catch {A} (c : M A) (handler : exn -> M A) : M A :=
  fun w => match c w with
           | (Return a, w') => (Return a, w')
           | (Throw e, w') => handler e w'
           end.

Definition emit (e : event) : M unit := fun w => (Return tt, record e w).

Definition console_warn (msg : string) : M unit := emit (EWarn msg).
Definition performance_mark (name : string) : M unit := emit (EMark name).
Definition performance_measure (name startMark : string) : M unit :=
  emit (EMeasure name startMark).

(** [JSON.parse(s)] *)
Definition parse (s : string) : M value := fun w => (JSON_parse w s, w).

(** [axios.post(url, body, {headers})]: the request goes out and the call
    resolves with a response or is rejected. *)
Definition axios_post (u : string) (b : value) (h : props) : M response :=
  fun w =>
    let rq := {| url := u; body := b; headers := h |} in
    (endpoint w (posts w) rq, record (EPost rq) w).

(** ** The collaborators of ./promise-utils *)

(** The interface [IRateLimiter]. *)
Record IRateLimiter : Type := {
  next : forall A : Type, M A -> M A;
  getDescription : string
}.
Arguments next _ {A} _.

(** Modelled from the spec: the rate limiters of ./promise-utils are not
    under src/.  The limiter has one operation that takes a unit of work
    and gives its result; it "must serialize or pace invocations per its
    own policy; must propagate the unit of work's failure unchanged": the
    unit of work runs once it has gained admission, and its result or
    failure is the limiter's.  The pacing itself, a matter of real time, is
    left out. *)
Definition RateLimiter (description : string) : IRateLimiter := {|
  next := fun A (work : M A) => emit EAdmission ;;; work;
  getDescription := description
|}.

(** Modelled from the spec: the attempts of [retry] (./promise-utils, not
    under src/) after the first; a failed attempt is followed by another
    as long as some are left, and the failure of the last is re-raised. *)
Fixpoint retry_more {A} (work : M A) (more : nat) : M A :=
  match more with
  | O => work
  | S more' => try_catch work (fun _ => retry_more work more')
  end.

(** Modelled from the spec: [retry] of ./promise-utils is not under src/.
    "Re-invokes unitOfWork up to maxAttempts times on failure; re-raises
    the final failure once attempts are exhausted; must not alter success
    results."  The budget counts the first attempt, which is always made
    (the budget of a client is at least 1). *)
Definition retry {A} (work : M A) (howManyTimes : nat) : M A :=
  retry_more work (Nat.pred howManyTimes).

(** ** The client *)

Module ChatModel.

Definition defaultPostOptions : props :=
  [ ("max_tokens", VInt 1000);   (* maximum number of tokens to return *)
    ("temperature", VInt 0);     (* sampling temperature *)
    ("top_p", VInt 1) ].

(** [PostOptions]: an object with some of the keys of the defaults. *)
Definition PostOptions : Type := props.

(** The fields of a [ChatModel]; [apiEndpoint] and [authHeaders] are what
    the constructor read from the environment. *)
Record t : Type := {
  model : string;
  nrAttempts : nat;
  rateLimiter : IRateLimiter;
  instanceOptions : PostOptions;
  apiEndpoint : string;
  authHeaders : string
}.

(** [typeof v === "string"] *)
Definition is_string (v : value) : bool := String.eqb (typeof v) "string".

(** A value of type string, as a string. *)
Definition as_string (v : value) : option string :=
  match v with VStr s => Some s | _ => None end.

(** [choice?.message?.content ?? choice?.delta?.content ?? choice?.text ??
    choice?.content] *)
Definition select_content (choice : value) : outcome value :=
  coalesce
    (coalesce
       (coalesce (m <- OptGet choice "message" ;; OptGet m "content")
                 (d <- OptGet choice "delta" ;; OptGet d "content"))
       (OptGet choice "text"))
    (OptGet choice "content").

(** One turn of the loop over an array of parts: what is pushed on
    [parts], if anything. *)
Definition part_text (item : value) : outcome (option string) :=
  if is_string item then Return (as_string item)
  else
    t <- OptGet item "text" ;;
    if is_string t then
      (t' <- Get item "text" ;; Return (as_string t'))
    else
      c <- OptGet item "content" ;;
      if is_string c then
        (c' <- Get item "content" ;; Return (as_string c'))
      else Return None.

Fixpoint collect_parts (items : list value) (parts : list string)
  : outcome (list string) :=
  match items with
  | [] => Return parts
  | item :: rest =>
    p <- part_text item ;;
    collect_parts rest (match p with Some s => parts ++ [s] | None => parts end)
  end.

(** [ChatModel.extractChoiceText]; [None] is the [undefined] it returns. *)
Definition extractChoiceText (choice : value) : outcome (option string) :=
  content <- select_content choice ;;
  if is_string content then Return (as_string content)
  else if Array_isArray content then
    items <- iterate content ;;
    parts <- collect_parts items [] ;;
    let joined := String.concat EmptyString parts in
    Return (if (0 <? String.length joined)%nat then Some joined else None)
  else if truthy content && String.eqb (typeof content) "object" then
    t <- Get content "text" ;;
    if is_string t then
      (t' <- Get content "text" ;; Return (as_string t'))
    else Return None
  else Return None.

(** The option overlay of [query]:
    [{...defaultPostOptions, ...this.instanceOptions, ...requestPostOptions}] *)
Definition query_options (instanceOptions requestPostOptions : PostOptions) : props :=
  spread (spread (spread [] (VObj defaultPostOptions)) (VObj instanceOptions))
         (VObj requestPostOptions).

(** The request document [postOptions] of [query]. *)
Definition query_postOptions (model prompt : string) (options : props) : value :=
  VObj (spread
          [ ("model", VStr model);
            ("messages",
             VArr [ VObj [ ("role", VStr "system");
                           ("content", VStr "You are a programming assistant.") ];
                    VObj [ ("role", VStr "user"); ("content", VStr prompt) ] ]) ]
          (VObj options)).

(** The label of the telemetry measure of [query]. *)
Definition query_measure_name (prompt : string) (options : props) : string :=
  "llm-query:" +:+
  default "undefined"
    (JSON_stringify
       (VObj (obj_set (spread [] (VObj options)) "promptLength"
                      (VInt (Z.of_nat (String.length prompt)))))).

(** [query] up to the telemetry measure: headers, options, request
    document and the resilient call. *)
Definition query_request (c : t) (prompt : string)
  (requestPostOptions : PostOptions) : M response :=
  auth <- parse (authHeaders c) ;;
  let headers := spread [ ("Content-Type", VStr "application/json") ] auth in
  let options := query_options (instanceOptions c) requestPostOptions in
  performance_mark "llm-query-start" ;;;
  let postOptions := query_postOptions (model c) prompt options in
  res <- retry (next (rateLimiter c) (axios_post (apiEndpoint c) postOptions headers))
               (nrAttempts c) ;;
  performance_measure (query_measure_name prompt options) "llm-query-start" ;;;
  ret res.

(** [new Error(message)] *)
Definition new_Error (message : value) : outcome exn :=
  match message with
  | VUndefined => Return (Error EmptyString)
  | _ => msg <- ToString message ;; Return (Error msg)
  end.

(** The loop of [query] over the choices. *)
Fixpoint collect (choices : list value) (completions : gset string) (skipped : nat)
  : outcome (gset string * nat) :=
  match choices with
  | [] => Return (completions, skipped)
  | choice :: rest =>
    text <- extractChoiceText choice ;;
    match text with
    | None => collect rest completions (S skipped)
    | Some text => collect rest ({[ text ]} ∪ completions) skipped
    end
  end.

(** [choices.find((c) => typeof ChatModel.extractChoiceText(c) !== "string")] *)
Fixpoint find_skipped (choices : list value) : outcome value :=
  match choices with
  | [] => Return VUndefined
  | c :: rest =>
    text <- extractChoiceText c ;;
    match text with
    | None => Return c
    | Some _ => find_skipped rest
    end
  end.

Definition skipped_warning (skipped : nat) (snippet : option string) : string :=
  "Warning: skipped " +:+ nat_digits skipped +:+
  " LLM choice(s) with no text content. Example: " +:+ default "undefined" snippet.

(** [query] from the validation of the response on.  A property read has
    no effect, so [json.error] and [json.choices] are read once each. *)
Definition query_response (res : response) : M (gset string) :=
  if negb (status res =? 200) then
    throw (Error ("Request failed with status " +:+ Z_digits (status res) +:+
                  " and message " +:+ statusText res))
  else if negb (truthy (data res)) then
    throw (Error "Response data is empty")
  else
    let json := data res in
    error <- pure (Get json "error") ;;
    if truthy error then
      e <- pure (new_Error error) ;; throw e
    else
      choices <- pure (Get json "choices") ;;
      if negb (Array_isArray choices) then
        throw (Error ("Unexpected LLM response format: expected choices array, got "
                      +:+ typeof choices))
      else
        items <- pure (iterate choices) ;;
        r <- pure (collect items ∅ 0%nat) ;;
        let completions := fst r in
        let skipped := snd r in
        (if (0 <? skipped)%nat then
           first <- pure (find_skipped items) ;;
           let snippet := option_map (slice0 500) (JSON_stringify first) in
           console_warn (skipped_warning skipped snippet)
         else ret tt) ;;;
        ret completions.

(** [ChatModel.query] *)
Definition query (c : t) (prompt : string) (requestPostOptions : PostOptions)
  : M (gset string) :=
  res <- query_request c prompt requestPostOptions ;;
  query_response res.

(** [ChatModel.completions] *)
Definition completions (c : t) (prompt : string) (temperature : number)
  : M (gset string) :=
  try_catch
    (found <- query c prompt [ ("temperature", VNum temperature) ] ;;
     ret (set_fold (fun completion result => {[ completion ]} ∪ result) ∅ found))
    (fun err =>
       console_warn ("Failed to get completions: " +:+ message err) ;;;
       ret ∅).

End ChatModel.
Import ChatModel.

(** * Properties *)

(** ** Property reads *)

Lemma member_nullish v k : nullish v = true -> member v k = VUndefined.
Proof. destruct v; simpl; intros H; try discriminate H; reflexivity. Qed.

Lemma Get_defined v k : nullish v = false -> Get v k = Return (member v k).
Proof. unfold Get. intros ->. reflexivity. Qed.

(** An optional read never throws. *)
Lemma OptGet_member v k : OptGet v k = Return (member v k).
Proof.
  unfold OptGet. destruct (nullish v) eqn:Hv.
  - rewrite member_nullish by assumption. reflexivity.
  - apply Get_defined, Hv.
Qed.

Lemma is_string_as_string v : is_string v = true -> exists s, v = VStr s.
Proof. destruct v; simpl; try discriminate. eauto. Qed.

Lemma is_string_member_defined v k :
  is_string (member v k) = true -> nullish v = false.
Proof.
  destruct (nullish v) eqn:Hv; [ | reflexivity ].
  rewrite member_nullish by assumption. discriminate.
Qed.

(** ** Extraction, as a function of the choice *)

(** [a ?? b] on values. *)
Definition or_else (a b : value) : value := if nullish a then b else a.

(** The content [extractChoiceText] selects: the first of the four paths
    that is neither [null] nor [undefined]. *)
Definition selected (choice : value) : value :=
  or_else
    (or_else
       (or_else (member (member choice "message") "content")
                (member (member choice "delta") "content"))
       (member choice "text"))
    (member choice "content").

(** The fragment one part of an array contributes, in the words of the
    specification: the element itself if it is a string, else its [text]
    field if a string, else its [content] field if a string. *)
Definition fragment (item : value) : option string :=
  match item with
  | VStr s => Some s
  | _ =>
    match member item "text" with
    | VStr s => Some s
    | _ => match member item "content" with
           | VStr s => Some s
           | _ => None
           end
    end
  end.

Definition fragments (items : list value) : list string := omap fragment items.

(** The text of a choice. *)
Definition text_of (choice : value) : option string :=
  match selected choice with
  | VStr s => Some s
  | VArr items =>
    let joined := String.concat EmptyString (fragments items) in
    if String.eqb joined EmptyString then None else Some joined
  | VObj ps => as_string (member (VObj ps) "text")
  | _ => None
  end.

Lemma coalesce_Return a b :
  coalesce (Return a) (Return b) = Return (or_else a b).
Proof. unfold coalesce, or_else. simpl. destruct (nullish a); reflexivity. Qed.

Lemma select_content_selected choice :
  select_content choice = Return (selected choice).
Proof.
  unfold select_content, selected.
  rewrite !OptGet_member. simpl. rewrite !OptGet_member.
  rewrite !coalesce_Return. reflexivity.
Qed.

Lemma part_text_fragment item : part_text item = Return (fragment item).
Proof.
  unfold part_text, fragment.
  destruct (is_string item) eqn:Hitem.
  { apply is_string_as_string in Hitem as [s ->]. reflexivity. }
  rewrite !OptGet_member. simpl.
  destruct (is_string (member item "text")) eqn:Htext.
  { rewrite Get_defined by (eapply is_string_member_defined; eassumption).
    apply is_string_as_string in Htext as [s Hs]. rewrite Hs. simpl.
    destruct item; try reflexivity. discriminate Hitem. }
  destruct (is_string (member item "content")) eqn:Hcontent.
  { rewrite Get_defined by (eapply is_string_member_defined; eassumption).
    apply is_string_as_string in Hcontent as [s Hs]. simpl. rewrite Hs in *. simpl.
    destruct item; try reflexivity; try discriminate Hitem;
      destruct (member _ "text"); try reflexivity; discriminate Htext. }
  destruct item; try reflexivity; try discriminate Hitem;
    destruct (member _ "text"); try discriminate Htext;
    destruct (member _ "content"); try discriminate Hcontent; reflexivity.
Qed.

Lemma collect_parts_fragments items parts :
  collect_parts items parts = Return (parts ++ fragments items)%list.
Proof.
  revert parts. induction items as [ | item rest IH ]; intros parts; simpl.
  - rewrite app_nil_r. reflexivity.
  - rewrite part_text_fragment. simpl. rewrite IH. unfold fragments. simpl.
    destruct (fragment item); [ rewrite <- app_assoc | ]; reflexivity.
Qed.

Lemma length_pos_eqb s :
  (0 <? String.length s)%nat = negb (String.eqb s EmptyString).
Proof. destruct s; reflexivity. Qed.

(** [extractChoiceText] returns, and what it returns is [text_of]. *)
Lemma extractChoiceText_text_of choice :
  extractChoiceText choice = Return (text_of choice).
Proof.
  unfold extractChoiceText, text_of.
  rewrite select_content_selected. simpl.
  destruct (selected choice) as [ | | b | n | s | items | ps ]; try reflexivity.
  - simpl. rewrite andb_false_r. reflexivity.
  - simpl. rewrite andb_false_r. reflexivity.
  - simpl. rewrite collect_parts_fragments. simpl. rewrite length_pos_eqb.
    destruct (String.eqb _ EmptyString); reflexivity.
  - simpl. destruct (is_string (member (VObj ps) "text")) eqn:Htext.
    + reflexivity.
    + destruct (member (VObj ps) "text"); try reflexivity. discriminate Htext.
Qed.

(** ** The aggregation of [query] *)

(** What [extractChoiceText] returns on a choice. *)
Definition extracted (choice : value) : option string :=
  match extractChoiceText choice with
  | Return text => text
  | Throw _ => None
  end.

Lemma extracted_text_of choice : extracted choice = text_of choice.
Proof. unfold extracted. rewrite extractChoiceText_text_of. reflexivity. Qed.

Lemma extractChoiceText_extracted choice :
  extractChoiceText choice = Return (extracted choice).
Proof. rewrite extracted_text_of. apply extractChoiceText_text_of. Qed.

(** A choice without text: [typeof extractChoiceText(c) !== "string"]. *)
Definition is_absent (choice : value) : bool :=
  match extracted choice with None => true | Some _ => false end.

(** The texts recovered from the choices, in order, with repetitions. *)
Definition recovered (choices : list value) : list string := omap extracted choices.

(** The choices that are skipped, in order. *)
Definition skipped_choices (choices : list value) : list value :=
  List.filter is_absent choices.

(** The snapshot of a choice in the diagnostic: [JSON.stringify(first)?.slice(0, 500)]
    inside the template literal. *)
Definition snapshot (first : value) : string :=
  default "undefined" (option_map (slice0 500) (JSON_stringify first)).

Lemma recovered_skipped_length choices :
  (length (recovered choices) + length (skipped_choices choices) = length choices)%nat.
Proof.
  unfold recovered, skipped_choices.
  induction choices as [ | c rest IH ]; [ reflexivity | ].
  simpl. unfold omap in *. unfold is_absent at 1. destruct (extracted c); simpl; lia.
Qed.

Lemma size_list_to_set_le (l : list string) :
  (size (list_to_set l : gset string) <= length l)%nat.
Proof.
  induction l as [ | x l IH ].
  - rewrite list_to_set_nil, size_empty. simpl. lia.
  - rewrite list_to_set_cons, size_union_alt, size_singleton. simpl.
    assert (size (list_to_set l ∖ {[ x ]} : gset string) <= size (list_to_set l : gset string))%nat
      by (apply subseteq_size; set_solver).
    lia.
Qed.

Lemma collect_recovered choices completions skipped :
  collect choices completions skipped =
  Return (list_to_set (recovered choices) ∪ completions,
          (skipped + length (skipped_choices choices))%nat).
Proof.
  revert completions skipped. unfold recovered, skipped_choices.
  induction choices as [ | c rest IH ]; intros completions skipped; simpl.
  - f_equal. f_equal; [ set_solver | lia ].
  - rewrite extractChoiceText_extracted. simpl.
    unfold is_absent at 1. destruct (extracted c) as [ text | ]; rewrite IH.
    + f_equal. f_equal. set_solver.
    + f_equal. f_equal. simpl. lia.
Qed.

Lemma find_skipped_head choices :
  find_skipped choices = Return (default VUndefined (head (skipped_choices choices))).
Proof.
  unfold skipped_choices. induction choices as [ | c rest IH ]; [ reflexivity | ].
  simpl. rewrite extractChoiceText_extracted. simpl.
  unfold is_absent at 1. destruct (extracted c).
  - exact IH.
  - reflexivity.
Qed.

Lemma slice0_length n s : (String.length (slice0 n s) <= n)%nat.
Proof.
  unfold slice0. revert s. induction n as [ | n IH ]; intros [ | c s ]; simpl; try lia.
  specialize (IH s). lia.
Qed.

Lemma snapshot_length first : (String.length (snapshot first) <= 500)%nat.
Proof.
  unfold snapshot. destruct (JSON_stringify first) as [ s | ]; simpl.
  - apply slice0_length.
  - lia.
Qed.

(** What [query] does with a response that passes its four checks. *)
Definition valid (res : response) (choices : list value) : Prop :=
  status res = 200 /\ truthy (data res) = true /\
  truthy (member (data res) "error") = false /\
  member (data res) "choices" = VArr choices.

Definition warn_skipped (choices : list value) (w : world) : world :=
  match skipped_choices choices with
  | [] => w
  | first :: _ =>
    record (EWarn (skipped_warning (length (skipped_choices choices))
                                   (option_map (slice0 500) (JSON_stringify first)))) w
  end.

Lemma truthy_defined v : truthy v = true -> nullish v = false.
Proof. destruct v; simpl; try discriminate; reflexivity. Qed.

Lemma query_response_valid res choices w :
  valid res choices ->
  query_response res w =
  (Return (list_to_set (recovered choices)), warn_skipped choices w).
Proof.
  intros (Hstatus & Hdata & Herror & Hchoices).
  unfold query_response. rewrite Hstatus, Hdata. simpl.
  rewrite !Get_defined by (apply truthy_defined, Hdata).
  unfold M_bind, pure. simpl. rewrite Herror, Hchoices. simpl.
  rewrite collect_recovered. simpl. unfold warn_skipped.
  destruct (skipped_choices choices) as [ | first others ] eqn:Hskipped; simpl.
  - f_equal. f_equal. set_solver.
  - rewrite find_skipped_head, Hskipped. simpl. unfold console_warn, emit.
    f_equal. f_equal. set_solver.
Qed.

(** ** Resilient execution *)

(** The world after further events. *)
Definition extend (es : list event) (w : world) : world :=
  {| JSON_parse := JSON_parse w; endpoint := endpoint w; log := log w ++ es |}.

(** One attempt: an admission by the rate limiter, then the request. *)
Definition round (rq : request) : list event := [ EAdmission; EPost rq ].

Fixpoint rounds (n : nat) (rq : request) : list event :=
  match n with
  | O => []
  | S n' => round rq ++ rounds n' rq
  end.

Lemma extend_extend es1 es2 w : extend es2 (extend es1 w) = extend (es1 ++ es2) w.
Proof. unfold extend. simpl. rewrite app_assoc. reflexivity. Qed.

Lemma record_extend e w : record e w = extend [ e ] w.
Proof. reflexivity. Qed.

Lemma posts_extend es w :
  posts (extend es w) = (posts w + length (List.filter is_post es))%nat.
Proof. unfold posts, extend. simpl. rewrite List.filter_app, length_app. reflexivity. Qed.

Lemma admissions_extend es w :
  admissions (extend es w) = (admissions w + length (List.filter is_admission es))%nat.
Proof. unfold admissions, extend. simpl. rewrite List.filter_app, length_app. reflexivity. Qed.

Lemma posts_rounds n rq : length (List.filter is_post (rounds n rq)) = n.
Proof. induction n as [ | n IH ]; simpl; [ | rewrite IH ]; reflexivity. Qed.

Lemma admissions_rounds n rq : length (List.filter is_admission (rounds n rq)) = n.
Proof. induction n as [ | n IH ]; simpl; [ | rewrite IH ]; reflexivity. Qed.

Section Attempts.
Variables (description u : string) (b : value) (h : props).

Let rq : request := {| url := u; body := b; headers := h |}.

(** The unit of work [query] hands to [retry]. *)
Definition attempt : M response :=
  next (RateLimiter description) (axios_post u b h).

Lemma attempt_round w :
  attempt w = (endpoint w (posts w) rq, extend (round rq) w).
Proof.
  unfold attempt, axios_post. simpl. unfold M_bind, emit. simpl.
  rewrite !record_extend, extend_extend, posts_extend. simpl.
  rewrite Nat.add_0_r. reflexivity.
Qed.

(** [retry] runs attempts until one succeeds or the budget is spent: it
    makes [j + 1] of them, the first [j] fail, and its outcome is that
    of the last. *)
Lemma retry_more_attempts more w :
  exists j : nat,
    (j <= more)%nat /\
    retry_more attempt more w =
      (endpoint w (posts w + j)%nat rq, extend (rounds (S j) rq) w) /\
    (forall i : nat, (i < j)%nat -> exists e, endpoint w (posts w + i)%nat rq = Throw e) /\
    ((j < more)%nat -> exists res, endpoint w (posts w + j)%nat rq = Return res).
Proof.
  revert w. induction more as [ | more IH ]; intros w.
  - exists 0%nat. simpl retry_more. rewrite attempt_round, Nat.add_0_r.
    split; [ lia | split; [ reflexivity | split ] ]; intros; lia.
  - simpl. unfold try_catch. rewrite attempt_round.
    destruct (endpoint w (posts w) rq) as [ res | e ] eqn:Hfirst.
    + exists 0%nat. rewrite Nat.add_0_r, Hfirst.
      split; [ lia | split; [ reflexivity | split ] ]; [ intros; lia | eauto ].
    + destruct (IH (extend (round rq) w)) as (j & Hj & Hrun & Hfail & Hstop).
      rewrite posts_extend in Hrun, Hfail, Hstop. simpl in Hrun, Hfail, Hstop.
      exists (S j). rewrite Hrun, extend_extend.
      replace (posts w + 1 + j)%nat with (posts w + S j)%nat in * by lia.
      split; [ | split; [ | split ] ].
      * lia.
      * reflexivity.
      * intros [ | i ] Hi.
        -- rewrite Nat.add_0_r. eauto.
        -- destruct (Hfail i) as [ e' He' ]; [ lia | ].
           exists e'. rewrite <- He'. f_equal. lia.
      * intros Hlt. apply Hstop. lia.
Qed.
End Attempts.

(** The request [query] sends. *)
Definition request_of (c : t) (prompt : string) (requestPostOptions : props)
  (auth : value) : request :=
  {| url := apiEndpoint c;
     body := query_postOptions (model c) prompt
               (query_options (instanceOptions c) requestPostOptions);
     headers := spread [ ("Content-Type", VStr "application/json") ] auth |}.

(** The events of a call of [query] that makes [n] attempts, up to the
    validation of the response. *)
Definition request_events (c : t) (prompt : string) (requestPostOptions : props)
  (auth : value) (n : nat) (answered : bool) : list event :=
  EMark "llm-query-start"
  :: rounds n (request_of c prompt requestPostOptions auth)
  ++ (if answered
      then [ EMeasure (query_measure_name prompt
                         (query_options (instanceOptions c) requestPostOptions))
                      "llm-query-start" ]
      else []).

Lemma query_request_attempts c description prompt opts auth w :
  rateLimiter c = RateLimiter description ->
  JSON_parse w (authHeaders c) = Return auth ->
  exists j : nat,
    (j <= Nat.pred (nrAttempts c))%nat /\
    query_request c prompt opts w =
      (endpoint w (posts w + j)%nat (request_of c prompt opts auth),
       extend (request_events c prompt opts auth (S j)
                 (match endpoint w (posts w + j)%nat (request_of c prompt opts auth) with
                  | Return _ => true
                  | Throw _ => false
                  end)) w) /\
    (forall i : nat, (i < j)%nat ->
       exists e, endpoint w (posts w + i)%nat (request_of c prompt opts auth) = Throw e) /\
    ((j < Nat.pred (nrAttempts c))%nat ->
       exists res, endpoint w (posts w + j)%nat (request_of c prompt opts auth) = Return res).
Proof.
  intros Hlimiter Hauth.
  destruct (retry_more_attempts description (apiEndpoint c)
              (query_postOptions (model c) prompt (query_options (instanceOptions c) opts))
              (spread [ ("Content-Type", VStr "application/json") ] auth)
              (Nat.pred (nrAttempts c)) (record (EMark "llm-query-start") w))
    as (j & Hj & Hrun & Hfail & Hstop).
  rewrite record_extend, posts_extend in Hrun, Hfail, Hstop.
  simpl in Hrun, Hfail, Hstop. rewrite Nat.add_0_r in Hrun, Hfail, Hstop.
  exists j. split; [ exact Hj | split; [ | split; [ exact Hfail | exact Hstop ] ] ].
  unfold query_request, retry. simpl. unfold M_bind, parse. rewrite Hauth.
  unfold performance_mark, emit at 1. rewrite Hlimiter.
  fold (attempt description (apiEndpoint c)
          (query_postOptions (model c) prompt (query_options (instanceOptions c) opts))
          (spread [ ("Content-Type", VStr "application/json") ] auth)).
  rewrite record_extend, Hrun. unfold request_of, request_events.
  destruct (endpoint w (posts w + j)%nat _) as [ res | e ].
  - unfold performance_measure, emit. rewrite record_extend, !extend_extend.
    reflexivity.
  - rewrite extend_extend, app_nil_r. reflexivity.
Qed.

(** ** Object spread *)

Lemma own_obj_set o k v k' :
  own (obj_set o k v) k' = if String.eqb k' k then Some v else own o k'.
Proof.
  induction o as [ | [k0 v0] o IH ]; simpl.
  - reflexivity.
  - destruct (String.eqb_spec k k0) as [ <- | Hk ]; simpl.
    + destruct (String.eqb k' k); reflexivity.
    + rewrite IH. destruct (String.eqb_spec k' k0) as [ -> | Hk' ].
      * destruct (String.eqb_spec k0 k) as [ -> | _ ]; [ destruct Hk | ]; reflexivity.
      * reflexivity.
Qed.

Lemma own_copy from keys target k :
  own (fold_left (fun o k0 => obj_set o k0 (default VUndefined (own from k0)))
                 keys target) k =
  if existsb (String.eqb k) keys then Some (default VUndefined (own from k))
  else own target k.
Proof.
  revert target. induction keys as [ | k0 keys IH ]; intros target; simpl.
  - reflexivity.
  - rewrite IH, own_obj_set.
    destruct (String.eqb_spec k k0) as [ -> | _ ]; simpl;
      destruct (existsb (String.eqb _) keys); reflexivity.
Qed.

Lemma own_keys ps k :
  existsb (String.eqb k) (map fst ps) = match own ps k with Some _ => true | None => false end.
Proof.
  induction ps as [ | [k0 v0] ps IH ]; simpl; [ reflexivity | ].
  destruct (String.eqb k k0); simpl; [ reflexivity | exact IH ].
Qed.

(** A property of the later object wins; the others are kept. *)
Lemma own_spread target source k :
  own (spread target (VObj source)) k =
  match own source k with
  | Some v => Some v
  | None => own target k
  end.
Proof.
  unfold spread. simpl. rewrite own_copy, own_keys.
  destruct (own source k); reflexivity.
Qed.

(** [query], once the outcome [H] of its request is known. *)
Ltac after_request H := unfold query; simpl; unfold M_bind; rewrite H.

(** * The claims *)

(** ** Choice text extraction *)

(** A choice whose [message.content] is a number and whose [text] is a
    string. *)
Definition choice_number_content : value :=
  VObj [ ("message", VObj [ ("content", VInt 42) ]); ("text", VStr "y") ].

(** C1 as stated fails.  For the choice [{message: {content: 42}, text: "y"}]
    the field [message.content] exists and is not a string, [delta.content]
    is not a string and [text] is the string ["y"], yet extraction returns
    [undefined]: [??] passes over [null] and [undefined] only, so the number
    is the selected content. *)
Lemma extraction_priority_counterexample :
  member (member choice_number_content "message") "content" = VInt 42 /\
  is_string (member (member choice_number_content "message") "content") = false /\
  is_string (member (member choice_number_content "delta") "content") = false /\
  member choice_number_content "text" = VStr "y" /\
  extractChoiceText choice_number_content = Return None /\
  extractChoiceText choice_number_content <> Return (Some "y").
Proof. repeat split; try reflexivity. discriminate. Qed.

(** C1, amended.  Extraction takes, in the priority order [message.content],
    [delta.content], top-level [text], top-level [content], the first that
    is neither [null] nor [undefined], and returns it if it is a string.  In
    particular, where [message.content] and [delta.content] are [null] or
    [undefined] (or their parents are missing) and [text] is a string,
    extraction returns [text]; and a [message.content] that is neither
    [null] nor [undefined] is the selected content, whatever [text] holds.
    The same holds down the chain: each path is the selected content
    exactly when it is neither [null] nor [undefined] and all the paths
    before it are, and the last path is selected when the first three are
    [null] or [undefined]. *)
Theorem extraction_priority (choice : value) :
  (forall s, member (member choice "message") "content" = VStr s ->
             extractChoiceText choice = Return (Some s)) /\
  (forall s, nullish (member (member choice "message") "content") = true ->
             member (member choice "delta") "content" = VStr s ->
             extractChoiceText choice = Return (Some s)) /\
  (forall s, nullish (member (member choice "message") "content") = true ->
             nullish (member (member choice "delta") "content") = true ->
             member choice "text" = VStr s ->
             extractChoiceText choice = Return (Some s)) /\
  (forall s, nullish (member (member choice "message") "content") = true ->
             nullish (member (member choice "delta") "content") = true ->
             nullish (member choice "text") = true ->
             member choice "content" = VStr s ->
             extractChoiceText choice = Return (Some s)) /\
  (nullish (member (member choice "message") "content") = false ->
   select_content choice = Return (member (member choice "message") "content")) /\
  (nullish (member (member choice "message") "content") = true ->
   nullish (member (member choice "delta") "content") = false ->
   select_content choice = Return (member (member choice "delta") "content")) /\
  (nullish (member (member choice "message") "content") = true ->
   nullish (member (member choice "delta") "content") = true ->
   nullish (member choice "text") = false ->
   select_content choice = Return (member choice "text")) /\
  (nullish (member (member choice "message") "content") = true ->
   nullish (member (member choice "delta") "content") = true ->
   nullish (member choice "text") = true ->
   select_content choice = Return (member choice "content")) /\
  select_content choice = Return (selected choice) /\
  (forall s, select_content choice = Return (VStr s) ->
             extractChoiceText choice = Return (Some s)) /\
  (forall v, select_content choice = Return v ->
             nullish v = true -> extractChoiceText choice = Return None).
Proof.
  rewrite extractChoiceText_text_of, select_content_selected.
  unfold text_of, selected, or_else.
  repeat split.
  - intros s ->. reflexivity.
  - intros s -> ->. reflexivity.
  - intros s -> -> ->. reflexivity.
  - intros s -> -> -> ->. reflexivity.
  - intros H. repeat (rewrite H; simpl). reflexivity.
  - intros -> H. simpl. repeat (rewrite H; simpl). reflexivity.
  - intros -> -> H. simpl. repeat (rewrite H; simpl). reflexivity.
  - intros -> -> ->. reflexivity.
  - intros s H. injection H as ->. reflexivity.
  - intros v H Hv. injection H as ->. destruct v; try discriminate Hv; reflexivity.
Qed.

Lemma extraction_priority_witness :
  extractChoiceText
    (VObj [ ("message", VObj [ ("content", VNull) ]); ("text", VStr "y") ])
  = Return (Some "y") /\
  select_content
    (VObj [ ("delta", VObj [ ("content", VInt 42) ]); ("text", VStr "y") ])
  = Return (VInt 42).
Proof.
  split.
  - apply (proj1 (proj2 (proj2 (extraction_priority
             (VObj [ ("message", VObj [ ("content", VNull) ]); ("text", VStr "y") ])))));
      reflexivity.
  - apply (proj1 (proj2 (proj2 (proj2 (proj2 (proj2 (extraction_priority
             (VObj [ ("delta", VObj [ ("content", VInt 42) ]); ("text", VStr "y") ]))))))));
      reflexivity.
Defined.

(** C8.  Extraction is total: on a value of any shape [extractChoiceText]
    returns, a string or [undefined]; it never throws. *)
Theorem extraction_total (choice : value) :
  exists text : option string, extractChoiceText choice = Return text.
Proof. exists (text_of choice). apply extractChoiceText_text_of. Qed.

(** C6.  When the selected content is an array, extraction goes through its
    elements in order, takes of each the element itself if it is a string,
    else its [text] field if a string, else its [content] field if a
    string, and joins what it recovered without separator;
    [["a", {text: "b"}, {content: "c"}]] gives ["abc"], and with no fragment
    recovered, as for the empty array, the result is [undefined]. *)
Theorem array_of_parts (choice : value) (items : list value) :
  select_content choice = Return (VArr items) ->
  extractChoiceText choice =
    Return (let joined := String.concat EmptyString (fragments items) in
            if String.eqb joined EmptyString then None else Some joined) /\
  (items = [ VStr "a"; VObj [ ("text", VStr "b") ]; VObj [ ("content", VStr "c") ] ] ->
   extractChoiceText choice = Return (Some "abc")) /\
  (fragments items = [] -> extractChoiceText choice = Return None) /\
  (items = [] -> extractChoiceText choice = Return None).
Proof.
  rewrite select_content_selected, extractChoiceText_text_of.
  intros Hselected. injection Hselected as Hselected.
  unfold text_of. rewrite Hselected.
  split; [ reflexivity | split; [ | split ] ].
  - intros ->. reflexivity.
  - intros ->. reflexivity.
  - intros ->. reflexivity.
Qed.

Lemma array_of_parts_witness :
  extractChoiceText
    (VObj [ ("message",
             VObj [ ("content",
                     VArr [ VStr "a"; VObj [ ("text", VStr "b") ];
                            VObj [ ("content", VStr "c") ] ]) ]) ])
  = Return (Some "abc").
Proof.
  apply (proj1 (proj2 (array_of_parts
           (VObj [ ("message",
                    VObj [ ("content",
                            VArr [ VStr "a"; VObj [ ("text", VStr "b") ];
                                   VObj [ ("content", VStr "c") ] ]) ]) ])
           [ VStr "a"; VObj [ ("text", VStr "b") ]; VObj [ ("content", VStr "c") ] ]
           eq_refl)));
    reflexivity.
Defined.

(** ** Option resolution *)

(** C4.  The options of a request are a key-wise overlay of the built-in
    defaults, the options of the instance and the options of the call: a key
    resolves to its value at the call if it is present there, else to its
    value at the instance if present, else to the built-in default; a key
    present with the value [undefined] at a higher layer resolves to
    [undefined], whatever the lower layers hold. *)
Theorem option_resolution (instanceOptions requestPostOptions : props) (k : string) :
  own (query_options instanceOptions requestPostOptions) k =
    match own requestPostOptions k with
    | Some v => Some v
    | None =>
      match own instanceOptions k with
      | Some v => Some v
      | None => own defaultPostOptions k
      end
    end /\
  (own requestPostOptions k = Some VUndefined ->
   own (query_options instanceOptions requestPostOptions) k = Some VUndefined) /\
  (own requestPostOptions k = None -> own instanceOptions k = Some VUndefined ->
   own (query_options instanceOptions requestPostOptions) k = Some VUndefined).
Proof.
  assert (Hk : own (query_options instanceOptions requestPostOptions) k =
               match own requestPostOptions k with
               | Some v => Some v
               | None =>
                 match own instanceOptions k with
                 | Some v => Some v
                 | None => own defaultPostOptions k
                 end
               end).
  { unfold query_options. rewrite !own_spread.
    destruct (own requestPostOptions k); [ reflexivity | ].
    destruct (own instanceOptions k); [ reflexivity | ].
    destruct (own defaultPostOptions k); reflexivity. }
  split; [ exact Hk | split ].
  - intros Hcall. rewrite Hk, Hcall. reflexivity.
  - intros Hcall Hinstance. rewrite Hk, Hcall, Hinstance. reflexivity.
Qed.

Lemma option_resolution_witness :
  own (query_options [ ("top_p", VInt 1) ] [ ("temperature", VUndefined) ]) "temperature"
  = Some VUndefined.
Proof.
  apply (proj1 (proj2 (option_resolution
           [ ("top_p", VInt 1) ] [ ("temperature", VUndefined) ] "temperature")));
    reflexivity.
Defined.

(** ** Validation of the response *)

(** A client, and a world whose endpoint gives the listed answers to the
    successive requests and refuses the connection after them. *)
Definition client : t :=
  {| model := "gpt-4o";
     nrAttempts := 3;
     rateLimiter := RateLimiter "fixed rate";
     instanceOptions := [];
     apiEndpoint := "https://llm.example/v1/chat/completions";
     authHeaders := "{}" |}.

Definition answering (answers : list (outcome response)) : world :=
  {| JSON_parse := fun _ => Return (VObj []);
     endpoint := fun n _ => default (Throw (Error "connect ECONNREFUSED")) (answers !! n);
     log := [] |}.

(** A response whose body carries [error: false]. *)
Definition response_error_false : response :=
  {| status := 200; statusText := "OK";
     data := VObj [ ("error", VBool false); ("choices", VArr []) ] |}.

(** C3 as stated fails on its third check.  The body
    [{error: false, choices: []}] carries an [error] field, and [query]
    returns the empty set: the field is tested for truthiness. *)
Lemma response_validation_counterexample :
  own [ ("error", VBool false); ("choices", VArr []) ] "error" = Some (VBool false) /\
  fst (query client "p" [] (answering [ Return response_error_false ])) = Return ∅.
Proof. split; [ reflexivity | vm_compute; reflexivity ]. Qed.

(** C3, amended.  After the resilient call has returned a response, [query]
    makes four checks in this order, each raising a failure: (1) a status
    other than 200 fails with the status and the status text; (2) a falsy
    body (missing, [null], empty) fails with the empty-data message; (3) a
    truthy [error] field of the body fails with that field, converted to a
    string, as the message (the field itself when it is a string), or with
    the failure of that conversion; (4) a [choices] field that is no array
    fails with its [typeof]. *)
Theorem response_validation (c : t) (prompt : string) (opts : props)
  (w w' : world) (res : response) :
  query_request c prompt opts w = (Return res, w') ->
  (status res <> 200 ->
   query c prompt opts w =
     (Throw (Error ("Request failed with status " +:+ Z_digits (status res) +:+
                    " and message " +:+ statusText res)), w')) /\
  (status res = 200 -> truthy (data res) = false ->
   query c prompt opts w = (Throw (Error "Response data is empty"), w')) /\
  (status res = 200 -> truthy (data res) = true ->
   truthy (member (data res) "error") = true ->
   (forall msg, ToString (member (data res) "error") = Return msg ->
                query c prompt opts w = (Throw (Error msg), w')) /\
   (forall s, member (data res) "error" = VStr s ->
              query c prompt opts w = (Throw (Error s), w')) /\
   (forall e, ToString (member (data res) "error") = Throw e ->
              query c prompt opts w = (Throw e, w'))) /\
  (status res = 200 -> truthy (data res) = true ->
   truthy (member (data res) "error") = false ->
   Array_isArray (member (data res) "choices") = false ->
   query c prompt opts w =
     (Throw (Error ("Unexpected LLM response format: expected choices array, got "
                    +:+ typeof (member (data res) "choices"))), w')).
Proof.
  intros Hrequest. after_request Hrequest.
  unfold query_response.
  split; [ | split; [ | split ] ].
  - intros Hstatus. apply Z.eqb_neq in Hstatus. rewrite Hstatus. reflexivity.
  - intros -> ->. reflexivity.
  - intros -> Hdata Herror. rewrite Hdata. simpl.
    rewrite !Get_defined by (apply truthy_defined, Hdata).
    unfold M_bind, pure. rewrite Herror.
    assert (Hdefined : member (data res) "error" <> VUndefined)
      by (intros Hu; rewrite Hu in Herror; discriminate Herror).
    assert (Hnew : new_Error (member (data res) "error") =
                   (msg <- ToString (member (data res) "error") ;; Return (Error msg))).
    { destruct (member (data res) "error"); try reflexivity. destruct Hdefined; reflexivity. }
    rewrite Hnew. clear Hnew. simpl.
    split; [ | split ].
    + intros msg ->. reflexivity.
    + intros s ->. reflexivity.
    + intros e ->. reflexivity.
  - intros -> Hdata Herror Hchoices. rewrite Hdata. simpl.
    rewrite !Get_defined by (apply truthy_defined, Hdata).
    unfold M_bind, pure. rewrite Herror, Hchoices. reflexivity.
Qed.

(** An answer that [axios.post] resolves with and [query] rejects. *)
Definition response_204 : response :=
  {| status := 204; statusText := "No Content"; data := VStr EmptyString |}.

Lemma response_validation_witness :
  fst (query client "write a test" [] (answering [ Return response_204 ])) =
  Throw (Error "Request failed with status 204 and message No Content").
Proof.
  pose proof (proj1 (response_validation client "write a test" []
                 (answering [ Return response_204 ])
                 (snd (query_request client "write a test" []
                         (answering [ Return response_204 ])))
                 response_204 eq_refl)) as H.
  rewrite H; [ reflexivity | discriminate ].
Defined.

(** A response that passes the four checks makes [query] return. *)
Lemma query_valid c prompt opts w w' res choices :
  query_request c prompt opts w = (Return res, w') ->
  valid res choices ->
  query c prompt opts w =
    (Return (list_to_set (recovered choices)), warn_skipped choices w').
Proof.
  intros Hrequest Hvalid. after_request Hrequest.
  apply query_response_valid, Hvalid.
Qed.

(** C9.  The [error] check of [query] tests truthiness, not presence: with an
    [error] field that is present and falsy (the empty string, 0, [false],
    [null]) [query] does not fail on it; validation goes on to the [choices]
    check, failing there when [choices] is no array and returning
    otherwise. *)
Theorem falsy_error_passes (c : t) (prompt : string) (opts : props)
  (w w' : world) (res : response) (body : props) (e : value) :
  query_request c prompt opts w = (Return res, w') ->
  status res = 200 ->
  data res = VObj body ->
  own body "error" = Some e ->
  truthy e = false ->
  (Array_isArray (member (data res) "choices") = false ->
   query c prompt opts w =
     (Throw (Error ("Unexpected LLM response format: expected choices array, got "
                    +:+ typeof (member (data res) "choices"))), w')) /\
  (forall choices, member (data res) "choices" = VArr choices ->
     exists found w'', query c prompt opts w = (Return found, w'')) /\
  truthy (VStr EmptyString) = false /\ truthy (VInt 0) = false /\
  truthy (VBool false) = false /\ truthy VNull = false.
Proof.
  intros Hrequest Hstatus Hdata Hown Hfalsy.
  assert (Herror : truthy (member (data res) "error") = false).
  { rewrite Hdata. unfold member. simpl. rewrite Hown. exact Hfalsy. }
  assert (Htruthy : truthy (data res) = true) by (rewrite Hdata; reflexivity).
  split; [ | split; [ | repeat split ] ].
  - intros Hchoices. after_request Hrequest.
    unfold query_response. rewrite Hstatus, Htruthy. simpl.
    rewrite !Get_defined by (apply truthy_defined, Htruthy).
    unfold M_bind, pure. rewrite Herror, Hchoices. reflexivity.
  - intros choices Hchoices. eexists. eexists.
    apply (query_valid c prompt opts w w' res choices Hrequest).
    repeat split; assumption.
Qed.

(** A response whose body carries [error: null] and no [choices]. *)
Definition response_error_null : response :=
  {| status := 200; statusText := "OK"; data := VObj [ ("error", VNull) ] |}.

Lemma falsy_error_passes_witness :
  fst (query client "p" [] (answering [ Return response_error_null ])) =
  Throw (Error "Unexpected LLM response format: expected choices array, got undefined").
Proof.
  pose proof (proj1 (falsy_error_passes client "p" []
                 (answering [ Return response_error_null ])
                 (snd (query_request client "p" []
                         (answering [ Return response_error_null ])))
                 response_error_null [ ("error", VNull) ] VNull
                 eq_refl eq_refl eq_refl eq_refl eq_refl)) as H.
  rewrite H; reflexivity.
Defined.

(** ** Aggregation *)

Lemma filter_head {A} (p : A -> bool) (l : list A) (x : A) (xs : list A) :
  List.filter p l = x :: xs ->
  exists before after,
    l = (before ++ x :: after)%list /\
    Forall (fun y => p y = false) before /\ p x = true.
Proof.
  induction l as [ | y l IH ]; simpl; [ discriminate | ].
  destruct (p y) eqn:Hy.
  - intros Heq. injection Heq as -> _. exists [], l. repeat split; [ constructor | exact Hy ].
  - intros Heq. destruct (IH Heq) as (before & after & -> & Hbefore & Hx).
    exists (y :: before), after. repeat split; [ constructor; assumption | exact Hx ].
Qed.

Lemma elem_of_recovered text choices :
  text ∈ recovered choices <->
  exists choice, choice ∈ choices /\ extractChoiceText choice = Return (Some text).
Proof.
  unfold recovered. rewrite list_elem_of_omap. split.
  - intros (choice & Hin & Htext). exists choice. split; [ exact Hin | ].
    rewrite extractChoiceText_extracted, Htext. reflexivity.
  - intros (choice & Hin & Htext). exists choice. split; [ exact Hin | ].
    unfold extracted. rewrite Htext. reflexivity.
Qed.

(** C7.  For a response with N choices of which M extract to [undefined],
    [query] returns the set of the recovered texts, of size at most N - M
    (two choices with the same text give one element); the skipped choices
    add nothing; exactly one diagnostic is emitted when M > 0 (none when
    M = 0), with a snapshot of the first skipped choice cut to at most 500
    characters; the set is empty when every choice is skipped. *)
Theorem skip_accounting (c : t) (prompt : string) (opts : props)
  (w w' : world) (res : response) (choices : list value) :
  query_request c prompt opts w = (Return res, w') ->
  valid res choices ->
  exists (found : gset string) (w'' : world),
    query c prompt opts w = (Return found, w'') /\
    (forall text, text ∈ found <->
       exists choice, choice ∈ choices /\ extractChoiceText choice = Return (Some text)) /\
    (size found <= length choices - length (skipped_choices choices))%nat /\
    (length (skipped_choices choices) = 0%nat -> log w'' = log w') /\
    ((0 < length (skipped_choices choices))%nat ->
     exists first before after,
       choices = (before ++ first :: after)%list /\
       Forall (fun choice => is_absent choice = false) before /\
       is_absent first = true /\
       log w'' =
         (log w' ++
          [ EWarn ("Warning: skipped " +:+ nat_digits (length (skipped_choices choices)) +:+
                   " LLM choice(s) with no text content. Example: " +:+ snapshot first) ])%list /\
       (String.length (snapshot first) <= 500)%nat) /\
    (length (skipped_choices choices) = length choices -> found = ∅).
Proof.
  intros Hrequest Hvalid.
  exists (list_to_set (recovered choices)), (warn_skipped choices w').
  split; [ apply (query_valid _ _ _ _ _ _ _ Hrequest Hvalid) | ].
  pose proof (recovered_skipped_length choices) as Hcount.
  split; [ | split; [ | split; [ | split ] ] ].
  - intros text. rewrite elem_of_list_to_set. apply elem_of_recovered.
  - pose proof (size_list_to_set_le (recovered choices)). lia.
  - unfold warn_skipped. destruct (skipped_choices choices); [ reflexivity | discriminate ].
  - unfold warn_skipped.
    destruct (skipped_choices choices) as [ | first others ] eqn:Hskipped; simpl; [ lia | ].
    intros _. destruct (filter_head _ _ _ _ Hskipped) as (before & after & Hsplit & Hbefore & Hfirst).
    exists first, before, after.
    repeat split; [ exact Hsplit | exact Hbefore | exact Hfirst | apply snapshot_length ].
  - intros Hall. assert (Hnone : recovered choices = []).
    { destruct (recovered choices); [ reflexivity | simpl in Hcount; lia ]. }
    rewrite Hnone. reflexivity.
Qed.

(** The answer of the end-to-end example, with one choice more that has no
    text. *)
Definition response_three_texts : response :=
  {| status := 200; statusText := "OK";
     data := VObj [ ("choices",
                     VArr [ VObj [ ("message", VObj [ ("content", VStr "t1") ]) ];
                            VObj [ ("message", VObj [ ("content", VStr "t1") ]) ];
                            VObj [ ("text", VStr "t2") ];
                            VObj [ ("finish_reason", VStr "length") ] ]) ] |}.

Lemma skip_accounting_witness :
  exists (found : gset string) (w'' : world),
    query client "write a test" [] (answering [ Return response_three_texts ]) =
      (Return found, w'') /\
    (size found <= 3)%nat.
Proof.
  destruct (skip_accounting client "write a test" []
              (answering [ Return response_three_texts ])
              (snd (query_request client "write a test" []
                      (answering [ Return response_three_texts ])))
              response_three_texts
              [ VObj [ ("message", VObj [ ("content", VStr "t1") ]) ];
                VObj [ ("message", VObj [ ("content", VStr "t1") ]) ];
                VObj [ ("text", VStr "t2") ];
                VObj [ ("finish_reason", VStr "length") ] ]
              eq_refl (conj eq_refl (conj eq_refl (conj eq_refl eq_refl))))
    as (found & w'' & Hquery & _ & Hsize & _).
  exists found, w''. split; [ exact Hquery | exact Hsize ].
Defined.





(** ** The lenient entry point *)

Lemma copy_set (found : gset string) :
  set_fold (fun completion result => {[ completion ]} ∪ result) ∅ found = found.
Proof.
  apply (set_fold_ind_L (fun (result found : gset string) => result = found)).
  - reflexivity.
  - intros x X result _ ->. reflexivity.
Qed.

(** A response either passes the four checks or makes [query] fail without
    a trace. *)
Lemma query_response_cases res w :
  (exists choices, valid res choices) \/
  (exists e, query_response res w = (Throw e, w)).
Proof.
  unfold valid, query_response.
  destruct (Z.eqb_spec (status res) 200) as [ Hstatus | Hstatus ]; simpl;
    [ | right; eauto ].
  destruct (truthy (data res)) eqn:Hdata; simpl; [ | right; eauto ].
  rewrite !Get_defined by (apply truthy_defined, Hdata).
  unfold M_bind, pure.
  destruct (truthy (member (data res) "error")) eqn:Herror.
  { right. destruct (new_Error (member (data res) "error")); eauto. }
  destruct (member (data res) "choices") as [ | | ? | ? | ? | choices | ? ] eqn:Hchoices;
    simpl; try (right; eauto; fail).
  left. exists choices. auto.
Qed.

Lemma warnings_extend es w :
  warnings (extend es w) = (warnings w ++ List.filter is_warn es)%list.
Proof. unfold warnings, extend. simpl. apply List.filter_app. Qed.

Lemma warnings_request_events c prompt opts auth n answered :
  List.filter is_warn (request_events c prompt opts auth n answered) = [].
Proof.
  unfold request_events. simpl. rewrite List.filter_app.
  assert (Hrounds : List.filter is_warn (rounds n (request_of c prompt opts auth)) = [])
    by (induction n as [ | n IH ]; [ reflexivity | exact IH ]).
  rewrite Hrounds. destruct answered; reflexivity.
Qed.

(** A call of [query] that fails has emitted no warning. *)
Lemma query_failure_silent c description prompt opts w w' e :
  rateLimiter c = RateLimiter description ->
  query c prompt opts w = (Throw e, w') ->
  warnings w' = warnings w.
Proof.
  intros Hlimiter Hquery.
  destruct (JSON_parse w (authHeaders c)) as [ auth | e0 ] eqn:Hauth.
  - destruct (query_request_attempts c description prompt opts auth w Hlimiter Hauth)
      as (j & _ & Hrun & _ & _).
    unfold query in Hquery. simpl in Hquery. unfold M_bind in Hquery.
    rewrite Hrun in Hquery.
    destruct (endpoint w (posts w + j)%nat _) as [ res | e1 ].
    + destruct (query_response_cases res
                  (extend (request_events c prompt opts auth (S j) true) w))
        as [ [ choices Hvalid ] | [ e1 Hfails ] ].
      * rewrite (query_response_valid _ _ _ Hvalid) in Hquery. discriminate Hquery.
      * rewrite Hfails in Hquery. injection Hquery as _ <-.
        rewrite warnings_extend, warnings_request_events. apply app_nil_r.
    + injection Hquery as _ <-.
      rewrite warnings_extend, warnings_request_events. apply app_nil_r.
  - unfold query, query_request in Hquery. simpl in Hquery.
    unfold M_bind, parse in Hquery. rewrite Hauth in Hquery.
    injection Hquery as _ <-. reflexivity.
Qed.

(** C2.  [completions] calls [query] with [temperature] alone overridden.
    If [query] fails, for whatever reason, [completions] catches the
    failure, emits one warning that carries its message (the only warning
    of the call) and returns the empty set; if [query] succeeds,
    [completions] returns a set with the same elements; [completions] never
    throws. *)
Theorem completions_lenient (c : t) (prompt : string) (temperature : number)
  (w : world) :
  completions c prompt temperature w =
    match query c prompt [ ("temperature", VNum temperature) ] w with
    | (Return found, w') => (Return found, w')
    | (Throw err, w') =>
      (Return ∅, record (EWarn ("Failed to get completions: " +:+ message err)) w')
    end /\
  (exists found w', completions c prompt temperature w = (Return found, w')) /\
  (forall description err w',
     rateLimiter c = RateLimiter description ->
     query c prompt [ ("temperature", VNum temperature) ] w = (Throw err, w') ->
     fst (completions c prompt temperature w) = Return ∅ /\
     warnings (snd (completions c prompt temperature w)) =
       (warnings w ++ [ EWarn ("Failed to get completions: " +:+ message err) ])%list).
Proof.
  assert (H : completions c prompt temperature w =
              match query c prompt [ ("temperature", VNum temperature) ] w with
              | (Return found, w') => (Return found, w')
              | (Throw err, w') =>
                (Return ∅, record (EWarn ("Failed to get completions: " +:+ message err)) w')
              end).
  { unfold completions, try_catch. simpl. unfold M_bind.
    destruct (query c prompt [ ("temperature", VNum temperature) ] w) as [ [ found | err ] w' ].
    - rewrite copy_set. reflexivity.
    - reflexivity. }
  split; [ exact H | split ].
  - rewrite H.
    destruct (query c prompt [ ("temperature", VNum temperature) ] w) as [ [ found | err ] w' ];
      eauto.
  - intros description err w' Hlimiter Hquery. rewrite H, Hquery. simpl.
    split; [ reflexivity | ].
    rewrite record_extend, warnings_extend.
    rewrite (query_failure_silent _ _ _ _ _ _ _ Hlimiter Hquery). reflexivity.
Qed.

Lemma completions_lenient_witness :
  fst (completions client "write a test" (Dec 7 (-1)) (answering [ Return response_204 ]))
    = Return ∅ /\
  warnings (snd (completions client "write a test" (Dec 7 (-1))
                   (answering [ Return response_204 ])))
    = [ EWarn ("Failed to get completions: " +:+
               "Request failed with status 204 and message No Content") ].
Proof.
  apply (proj2 (proj2 (completions_lenient client "write a test" (Dec 7 (-1))
                         (answering [ Return response_204 ])))
           "fixed rate"
           (Error "Request failed with status 204 and message No Content")
           (snd (query client "write a test" [ ("temperature", VNum (Dec 7 (-1))) ]
                   (answering [ Return response_204 ])))
           eq_refl).
  vm_compute. reflexivity.
Defined.

(** ** Retry around the rate limiter *)

Lemma admissions_request_events c prompt opts auth n answered :
  length (List.filter is_admission (request_events c prompt opts auth n answered)) = n.
Proof.
  unfold request_events. simpl. rewrite List.filter_app, length_app, admissions_rounds.
  destruct answered; simpl; lia.
Qed.

Lemma posts_request_events c prompt opts auth n answered :
  length (List.filter is_post (request_events c prompt opts auth n answered)) = n.
Proof.
  unfold request_events. simpl. rewrite List.filter_app, length_app, posts_rounds.
  destruct answered; simpl; lia.
Qed.

(** C5.  [query] wraps the admission by the rate limiter in [retry]: a call
    makes between one and [nrAttempts] attempts, each an admission followed
    by its HTTP request; with a budget of 3 and an endpoint that fails twice
    and then answers, the work gains admission exactly 3 times and the third
    answer is what the resilient call returns; when every attempt of the
    budget fails, [query] fails with the last failure. *)
Theorem retry_wraps_rate_limiter (c : t) (description prompt : string)
  (opts : props) (auth : value) (w : world) :
  rateLimiter c = RateLimiter description ->
  JSON_parse w (authHeaders c) = Return auth ->
  (exists (n : nat) (answered : bool),
     (1 <= n <= Nat.max 1 (nrAttempts c))%nat /\
     log (snd (query_request c prompt opts w)) =
       (log w ++ request_events c prompt opts auth n answered)%list /\
     admissions (snd (query_request c prompt opts w)) = (admissions w + n)%nat /\
     posts (snd (query_request c prompt opts w)) = (posts w + n)%nat) /\
  (forall (e1 e2 : exn) (res : response),
     nrAttempts c = 3%nat ->
     endpoint w (posts w) (request_of c prompt opts auth) = Throw e1 ->
     endpoint w (posts w + 1)%nat (request_of c prompt opts auth) = Throw e2 ->
     endpoint w (posts w + 2)%nat (request_of c prompt opts auth) = Return res ->
     exists w',
       query_request c prompt opts w = (Return res, w') /\
       log w' = (log w ++ request_events c prompt opts auth 3 true)%list /\
       admissions w' = (admissions w + 3)%nat) /\
  (forall failure : nat -> exn,
     (1 <= nrAttempts c)%nat ->
     (forall i : nat, (i < nrAttempts c)%nat ->
        endpoint w (posts w + i)%nat (request_of c prompt opts auth) = Throw (failure i)) ->
     exists w',
       query c prompt opts w = (Throw (failure (nrAttempts c - 1)%nat), w') /\
       admissions w' = (admissions w + nrAttempts c)%nat).
Proof.
  intros Hlimiter Hauth.
  destruct (query_request_attempts c description prompt opts auth w Hlimiter Hauth)
    as (j & Hj & Hrun & Hfail & Hstop).
  split; [ | split ].
  - eexists (S j), _. rewrite Hrun. simpl snd.
    rewrite admissions_extend, posts_extend, admissions_request_events, posts_request_events.
    split; [ lia | split; [ reflexivity | split; reflexivity ] ].
  - intros e1 e2 res Hbudget H0 H1 H2. rewrite Hbudget in Hj, Hstop. simpl in Hj, Hstop.
    assert (Hcases : j = 0%nat \/ j = 1%nat \/ j = 2%nat) by lia.
    destruct Hcases as [ -> | [ -> | -> ] ].
    + destruct Hstop as [ res' Hres' ]; [ lia | ].
      rewrite Nat.add_0_r, H0 in Hres'. discriminate Hres'.
    + destruct Hstop as [ res' Hres' ]; [ lia | ].
      rewrite H1 in Hres'. discriminate Hres'.
    + rewrite H2 in Hrun. eexists. split; [ exact Hrun | ].
      split; [ reflexivity | ].
      rewrite admissions_extend, admissions_request_events. reflexivity.
  - intros failure Hbudget Hall.
    assert (Hlast : j = (nrAttempts c - 1)%nat).
    { destruct (Nat.eq_dec j (nrAttempts c - 1)%nat) as [ Heq | Hne ]; [ exact Heq | ].
      destruct Hstop as [ res' Hres' ]; [ lia | ].
      rewrite Hall in Hres' by lia. discriminate Hres'. }
    subst j. rewrite Hall in Hrun by lia.
    eexists. split.
    + after_request Hrun. reflexivity.
    + rewrite admissions_extend, admissions_request_events. lia.
Qed.

(** An endpoint that refuses two connections and then answers. *)
Definition third_time_lucky : world :=
  answering [ Throw (Error "connect ECONNREFUSED");
              Throw (Error "socket hang up");
              Return response_three_texts ].

Lemma retry_wraps_rate_limiter_witness :
  exists w',
    query_request client "write a test" [] third_time_lucky
      = (Return response_three_texts, w') /\
    log w' = (log third_time_lucky ++
              request_events client "write a test" [] (VObj []) 3 true)%list /\
    admissions w' = 3%nat.
Proof.
  apply (proj1 (proj2 (retry_wraps_rate_limiter client "fixed rate" "write a test" []
                         (VObj []) third_time_lucky eq_refl eq_refl))
           (Error "connect ECONNREFUSED") (Error "socket hang up") response_three_texts);
    reflexivity.
Defined.

(** Malformed auth headers make [JSON.parse] fail before anything is sent;
    [completions] turns that failure too into a warning and an empty set. *)
Lemma completions_malformed_headers (c : t) (prompt : string)
  (temperature : number) (w : world) (e : exn) :
  JSON_parse w (authHeaders c) = Throw e ->
  completions c prompt temperature w =
    (Return ∅, record (EWarn ("Failed to get completions: " +:+ message e)) w).
Proof.
  intros Hparse. unfold completions, try_catch, query, query_request. simpl.
  unfold M_bind, parse. rewrite Hparse. reflexivity.
Qed.

(** ** The end-to-end examples of the specification *)

Definition response_t1_t1_t2 : response :=
  {| status := 200; statusText := "OK";
     data := VObj [ ("choices",
                     VArr [ VObj [ ("message", VObj [ ("content", VStr "t1") ]) ];
                            VObj [ ("message", VObj [ ("content", VStr "t1") ]) ];
                            VObj [ ("text", VStr "t2") ] ]) ] |}.

Example completions_t1_t2 :
  fst (completions client "write a test" (Dec 0 0)
         (answering [ Return response_t1_t1_t2 ]))
  = Return ({[ "t1" ]} ∪ {[ "t2" ]}).
Proof. vm_compute. reflexivity. Qed.

(** A server that answers every request with status 500: [axios.post]
    rejects each of the three attempts. *)
Definition server_error : world :=
  answering [ Throw (Error "Request failed with status code 500");
              Throw (Error "Request failed with status code 500");
              Throw (Error "Request failed with status code 500") ].

Example completions_status_500 :
  let run := completions client "write a test" (Dec 0 0) server_error in
  fst run = Return ∅ /\
  warnings (snd run) =
    [ EWarn "Failed to get completions: Request failed with status code 500" ] /\
  posts (snd run) = 3%nat.
Proof. vm_compute. repeat split; reflexivity. Qed.

Example query_skips_one :
  warnings (snd (query client "write a test" []
                   (answering [ Return response_three_texts ])))
  = [ EWarn ("Warning: skipped 1 LLM choice(s) with no text content. Example: " +:+
             default EmptyString
               (JSON_stringify (VObj [ ("finish_reason", VStr "length") ]))) ].
Proof. vm_compute. reflexivity. Qed.

(** * The rest of the client *)

(** ** Construction: [getEnv] and the constructor *)

Module Startup.

Inductive output : Type :=
| ConsoleError (msg : string)    (* console.error *)
| ConsoleLog (msg : string).     (* console.log *)

(** The process a client is constructed in: its environment variables and
    what it has written to the console, oldest first. *)
Record process : Type := {
  env : gmap string string;
  console : list output
}.

(** A step either goes on in the process or ends it with an exit code. *)
Inductive run (A : Type) : Type :=
| Done (a : A) (p : process)
| Exit (code : Z) (p : process).
Arguments Done {A} a p.
Arguments Exit {A} code p.

Definition P (A : Type) : Type := process -> run A.

Definition P_bind {A B} (c : P A) (k : A -> P B) : P B :=
  fun p => match c p with
           | Done a p' => k a p'
           | Exit code p' => Exit code p'
           end.

#[export] Instance P_monad : Monad P := {
  ret := fun A (a : A) (p : process) => Done a p;
  bind := @P_bind
}.

Definition write (o : output) (p : process) : process :=
  {| env := env p; console := console p ++ [ o ] |}.

Definition console_error (msg : string) : P unit := fun p => Done tt (write (ConsoleError msg) p).
Definition console_log (msg : string) : P unit := fun p => Done tt (write (ConsoleLog msg) p).

(** [process.exit(code)] *)
Definition process_exit {A} (code : Z) : P A := fun p => Exit code p.

(** [process.env[name]] *)
Definition process_env (name : string) : P (option string) :=
  fun p => Done (env p !! name) p.

(** [getEnv]: the value of a variable, which must be set and not empty. *)
Definition getEnv (name : string) : P string :=
  value <- process_env name ;;
  match value with
  | Some v =>
    if truthy (VStr v) then ret v
    else
      console_error ("Please set the " +:+ name +:+ " environment variable.") ;;;
      process_exit 1
  | None =>
    console_error ("Please set the " +:+ name +:+ " environment variable.") ;;;
    process_exit 1
  end.

(** The constructor of [ChatModel]; [None] for [instanceOptions] is the
    omitted argument, which defaults to the empty object. *)
Definition constructor (model : string) (nrAttempts : nat)
  (rateLimiter : IRateLimiter) (instanceOptions : option PostOptions) : P t :=
  apiEndpoint <- getEnv "TESTPILOT_LLM_API_ENDPOINT" ;;
  authHeaders <- getEnv "TESTPILOT_LLM_AUTH_HEADERS" ;;
  console_log ("Using " +:+ model +:+ " at " +:+ apiEndpoint +:+ " with " +:+
               nat_digits nrAttempts +:+ " attempts and " +:+
               getDescription rateLimiter) ;;;
  ret {| ChatModel.model := model;
         ChatModel.nrAttempts := nrAttempts;
         ChatModel.rateLimiter := rateLimiter;
         ChatModel.instanceOptions := default [] instanceOptions;
         ChatModel.apiEndpoint := apiEndpoint;
         ChatModel.authHeaders := authHeaders |}.

End Startup.
Import Startup.

(** A variable that [getEnv] accepts: set, and not to the empty string. *)
Definition provided (p : process) (name value : string) : Prop :=
  env p !! name = Some value /\ value <> EmptyString.

(** A variable that [getEnv] refuses: not set, or set to the empty string. *)
Definition missing (p : process) (name : string) : Prop :=
  env p !! name = None \/ env p !! name = Some EmptyString.

Lemma getEnv_provided p name value :
  provided p name value -> getEnv name p = Done value p.
Proof.
  intros [ Hset Hvalue ]. unfold getEnv. simpl. unfold P_bind, process_env.
  rewrite Hset. simpl. destruct (String.eqb_spec value EmptyString) as [ He | _ ].
  - destruct (Hvalue He).
  - reflexivity.
Qed.

Lemma getEnv_missing p name :
  missing p name ->
  getEnv name p =
    Exit 1 (write (ConsoleError ("Please set the " +:+ name +:+ " environment variable.")) p).
Proof.
  intros [ Hunset | Hempty ]; unfold getEnv; simpl; unfold P_bind, process_env.
  - rewrite Hunset. reflexivity.
  - rewrite Hempty. reflexivity.
Qed.

Lemma provided_or_missing p name :
  (exists value, provided p name value) \/ missing p name.
Proof.
  unfold provided, missing. destruct (env p !! name) as [ value | ]; [ | right; left; reflexivity ].
  destruct (String.eqb_spec value EmptyString) as [ -> | Hvalue ].
  - right. right. reflexivity.
  - left. exists value. split; [ reflexivity | exact Hvalue ].
Qed.

(** The line the constructor logs. *)
Definition using_line (model : string) (nrAttempts : nat)
  (rateLimiter : IRateLimiter) (apiEndpoint : string) : string :=
  "Using " +:+ model +:+ " at " +:+ apiEndpoint +:+ " with " +:+
  nat_digits nrAttempts +:+ " attempts and " +:+ getDescription rateLimiter.

Lemma constructor_provided model nrAttempts rateLimiter instanceOptions p endpoint headers :
  provided p "TESTPILOT_LLM_API_ENDPOINT" endpoint ->
  provided p "TESTPILOT_LLM_AUTH_HEADERS" headers ->
  constructor model nrAttempts rateLimiter instanceOptions p =
    Done {| ChatModel.model := model;
            ChatModel.nrAttempts := nrAttempts;
            ChatModel.rateLimiter := rateLimiter;
            ChatModel.instanceOptions := default [] instanceOptions;
            ChatModel.apiEndpoint := endpoint;
            ChatModel.authHeaders := headers |}
         (write (ConsoleLog (using_line model nrAttempts rateLimiter endpoint)) p).
Proof.
  intros Hendpoint Hheaders. unfold constructor. simpl. unfold P_bind.
  rewrite (getEnv_provided _ _ _ Hendpoint), (getEnv_provided _ _ _ Hheaders).
  reflexivity.
Qed.

Lemma constructor_missing_endpoint model nrAttempts rateLimiter instanceOptions p :
  missing p "TESTPILOT_LLM_API_ENDPOINT" ->
  constructor model nrAttempts rateLimiter instanceOptions p =
    Exit 1 (write (ConsoleError
              "Please set the TESTPILOT_LLM_API_ENDPOINT environment variable.") p).
Proof.
  intros Hmissing. unfold constructor. simpl. unfold P_bind.
  rewrite (getEnv_missing _ _ Hmissing). reflexivity.
Qed.

Lemma constructor_missing_headers model nrAttempts rateLimiter instanceOptions p endpoint :
  provided p "TESTPILOT_LLM_API_ENDPOINT" endpoint ->
  missing p "TESTPILOT_LLM_AUTH_HEADERS" ->
  constructor model nrAttempts rateLimiter instanceOptions p =
    Exit 1 (write (ConsoleError
              "Please set the TESTPILOT_LLM_AUTH_HEADERS environment variable.") p).
Proof.
  intros Hendpoint Hmissing. unfold constructor. simpl. unfold P_bind.
  rewrite (getEnv_provided _ _ _ Hendpoint), (getEnv_missing _ _ Hmissing). reflexivity.
Qed.

(** X1.  Construction succeeds exactly when both environment variables are
    set and not empty.  The client then holds their values (so its endpoint
    and its auth headers are never empty), the arguments it was given, the
    empty object for omitted instance options, and one line has been
    logged. *)
Theorem construction_succeeds (model : string) (nrAttempts : nat)
  (rateLimiter : IRateLimiter) (instanceOptions : option PostOptions) (p : process) :
  (forall endpoint headers,
     provided p "TESTPILOT_LLM_API_ENDPOINT" endpoint ->
     provided p "TESTPILOT_LLM_AUTH_HEADERS" headers ->
     constructor model nrAttempts rateLimiter instanceOptions p =
       Done {| ChatModel.model := model;
               ChatModel.nrAttempts := nrAttempts;
               ChatModel.rateLimiter := rateLimiter;
               ChatModel.instanceOptions := default [] instanceOptions;
               ChatModel.apiEndpoint := endpoint;
               ChatModel.authHeaders := headers |}
            (write (ConsoleLog (using_line model nrAttempts rateLimiter endpoint)) p)) /\
  (forall c p',
     constructor model nrAttempts rateLimiter instanceOptions p = Done c p' ->
     provided p "TESTPILOT_LLM_API_ENDPOINT" (apiEndpoint c) /\
     provided p "TESTPILOT_LLM_AUTH_HEADERS" (authHeaders c) /\
     apiEndpoint c <> EmptyString /\ authHeaders c <> EmptyString /\
     ChatModel.model c = model /\ ChatModel.nrAttempts c = nrAttempts /\
     ChatModel.rateLimiter c = rateLimiter /\
     ChatModel.instanceOptions c = default [] instanceOptions /\
     console p' =
       (console p ++ [ ConsoleLog (using_line model nrAttempts rateLimiter (apiEndpoint c)) ])%list).
Proof.
  split; [ intros endpoint headers; apply constructor_provided | ].
  intros c p' Hrun.
  destruct (provided_or_missing p "TESTPILOT_LLM_API_ENDPOINT") as [ [ endpoint Hendpoint ] | Hmissing ].
  - destruct (provided_or_missing p "TESTPILOT_LLM_AUTH_HEADERS") as [ [ headers Hheaders ] | Hmissing ].
    + rewrite (constructor_provided _ _ _ _ _ _ _ Hendpoint Hheaders) in Hrun.
      injection Hrun as <- <-. simpl.
      repeat split; try reflexivity;
        try apply Hendpoint; try apply Hheaders.
    + rewrite (constructor_missing_headers _ _ _ _ _ _ Hendpoint Hmissing) in Hrun.
      discriminate Hrun.
  - rewrite (constructor_missing_endpoint _ _ _ _ _ Hmissing) in Hrun. discriminate Hrun.
Qed.

(** A process with both variables set. *)
Definition configured : process :=
  {| env := <[ "TESTPILOT_LLM_API_ENDPOINT" := "https://llm.example/v1/chat/completions" ]>
              (<[ "TESTPILOT_LLM_AUTH_HEADERS" := "{}" ]> ∅);
     console := [] |}.

Lemma construction_succeeds_witness :
  constructor "gpt-4o" 3 (RateLimiter "fixed rate") None configured =
    Done client
      (write (ConsoleLog (using_line "gpt-4o" 3 (RateLimiter "fixed rate")
                            "https://llm.example/v1/chat/completions")) configured).
Proof.
  apply (proj1 (construction_succeeds "gpt-4o" 3 (RateLimiter "fixed rate") None configured)
           "https://llm.example/v1/chat/completions" "{}").
  - split; [ vm_compute; reflexivity | discriminate ].
  - split; [ vm_compute; reflexivity | discriminate ].
Defined.

(** X2.  Construction is refused when a variable is not set or is set to
    the empty string: the process exits with code 1 after one error line
    that names the variable, the endpoint being looked at first (with the
    endpoint missing the auth headers are not examined); nothing else is
    written. *)
Theorem construction_refused (model : string) (nrAttempts : nat)
  (rateLimiter : IRateLimiter) (instanceOptions : option PostOptions) (p : process) :
  (missing p "TESTPILOT_LLM_API_ENDPOINT" ->
   constructor model nrAttempts rateLimiter instanceOptions p =
     Exit 1 (write (ConsoleError
               "Please set the TESTPILOT_LLM_API_ENDPOINT environment variable.") p)) /\
  (forall endpoint,
     provided p "TESTPILOT_LLM_API_ENDPOINT" endpoint ->
     missing p "TESTPILOT_LLM_AUTH_HEADERS" ->
     constructor model nrAttempts rateLimiter instanceOptions p =
       Exit 1 (write (ConsoleError
                 "Please set the TESTPILOT_LLM_AUTH_HEADERS environment variable.") p)) /\
  (forall code p',
     constructor model nrAttempts rateLimiter instanceOptions p = Exit code p' ->
     code = 1 /\
     exists name,
       (name = "TESTPILOT_LLM_API_ENDPOINT" \/ name = "TESTPILOT_LLM_AUTH_HEADERS") /\
       missing p name /\
       console p' =
         (console p ++
          [ ConsoleError ("Please set the " +:+ name +:+ " environment variable.") ])%list).
Proof.
  split; [ apply constructor_missing_endpoint | split; [ apply constructor_missing_headers | ] ].
  intros code p' Hrun.
  destruct (provided_or_missing p "TESTPILOT_LLM_API_ENDPOINT") as [ [ endpoint Hendpoint ] | Hmissing ].
  - destruct (provided_or_missing p "TESTPILOT_LLM_AUTH_HEADERS") as [ [ headers Hheaders ] | Hmissing ].
    + rewrite (constructor_provided _ _ _ _ _ _ _ Hendpoint Hheaders) in Hrun.
      discriminate Hrun.
    + rewrite (constructor_missing_headers _ _ _ _ _ _ Hendpoint Hmissing) in Hrun.
      injection Hrun as <- <-.
      split; [ reflexivity | ]. exists "TESTPILOT_LLM_AUTH_HEADERS". auto.
  - rewrite (constructor_missing_endpoint _ _ _ _ _ Hmissing) in Hrun.
    injection Hrun as <- <-.
    split; [ reflexivity | ]. exists "TESTPILOT_LLM_API_ENDPOINT". auto.
Qed.

(** A process whose endpoint variable is set to the empty string. *)
Definition empty_endpoint : process :=
  {| env := <[ "TESTPILOT_LLM_API_ENDPOINT" := EmptyString ]>
              (<[ "TESTPILOT_LLM_AUTH_HEADERS" := "{}" ]> ∅);
     console := [] |}.

Lemma construction_refused_witness :
  constructor "gpt-4o" 3 (RateLimiter "fixed rate") None empty_endpoint =
    Exit 1 (write (ConsoleError
              "Please set the TESTPILOT_LLM_API_ENDPOINT environment variable.")
              empty_endpoint).
Proof.
  apply (proj1 (construction_refused "gpt-4o" 3 (RateLimiter "fixed rate") None
                  empty_endpoint)).
  right. vm_compute. reflexivity.
Defined.

(** ** What [query] sends *)

(** Spread of any value: its own enumerable properties win over those of
    the object under construction. *)
Lemma own_spread_value target source k :
  own (spread target source) k =
  match own (enumerable source) k with
  | Some v => Some v
  | None => own target k
  end.
Proof.
  unfold spread. rewrite own_copy, own_keys.
  destruct (own (enumerable source) k); reflexivity.
Qed.

Lemma elem_of_rounds e n rq : e ∈ rounds n rq -> e = EAdmission \/ e = EPost rq.
Proof.
  induction n as [ | n IH ]; simpl.
  - intros H. apply elem_of_nil in H. destruct H.
  - rewrite !elem_of_cons. intros [ -> | [ -> | H ] ]; auto.
Qed.

Lemma posted_in_request_events c prompt opts auth n answered rq :
  EPost rq ∈ request_events c prompt opts auth n answered ->
  rq = request_of c prompt opts auth.
Proof.
  unfold request_events. rewrite elem_of_cons, elem_of_app.
  intros [ H | [ H | H ] ].
  - discriminate H.
  - apply elem_of_rounds in H as [ H | H ]; [ discriminate H | ].
    injection H as ->. reflexivity.
  - destruct answered.
    + apply list_elem_of_singleton in H. discriminate H.
    + apply elem_of_nil in H. destruct H.
Qed.

Lemma log_warn_skipped choices w :
  log (warn_skipped choices w) = log w \/
  exists msg, log (warn_skipped choices w) = (log w ++ [ EWarn msg ])%list.
Proof.
  unfold warn_skipped. destruct (skipped_choices choices); [ left | right; eexists ];
    reflexivity.
Qed.

(** The events of one call of [query]: the mark, the attempts, the measure
    if the endpoint answered, and at most one warning. *)
Lemma query_log c description prompt opts auth w :
  rateLimiter c = RateLimiter description ->
  JSON_parse w (authHeaders c) = Return auth ->
  exists (n : nat) (answered : bool) (tail : list event),
    log (snd (query c prompt opts w)) =
      (log w ++ request_events c prompt opts auth n answered ++ tail)%list /\
    (tail = [] \/ exists msg, tail = [ EWarn msg ]) /\
    (answered = true <-> exists res w1, query_request c prompt opts w = (Return res, w1)).
Proof.
  intros Hlimiter Hauth.
  destruct (query_request_attempts c description prompt opts auth w Hlimiter Hauth)
    as (j & _ & Hrun & _ & _).
  unfold query. simpl. unfold M_bind. rewrite Hrun.
  destruct (endpoint w (posts w + j)%nat _) as [ res | e ].
  - destruct (query_response_cases res
                (extend (request_events c prompt opts auth (S j) true) w))
      as [ [ choices Hvalid ] | [ e Hfails ] ].
    + rewrite (query_response_valid _ _ _ Hvalid). simpl.
      exists (S j), true.
      destruct (log_warn_skipped choices
                  (extend (request_events c prompt opts auth (S j) true) w))
        as [ Hlog | [ msg Hlog ] ]; rewrite Hlog; simpl.
      * exists []. rewrite app_nil_r. split; [ reflexivity | split; [ auto | ] ].
        split; [ eauto | reflexivity ].
      * exists [ EWarn msg ]. rewrite <- app_assoc.
        split; [ reflexivity | split; [ eauto | ] ].
        split; [ eauto | reflexivity ].
    + rewrite Hfails. simpl. exists (S j), true, []. rewrite app_nil_r.
      split; [ reflexivity | split; [ auto | ] ]. split; [ eauto | reflexivity ].
  - simpl. exists (S j), false, []. rewrite app_nil_r.
    split; [ reflexivity | split; [ auto | ] ].
    split; [ discriminate | intros (res & w1 & H); discriminate H ].
Qed.

(** Every request a call of [query] issues is the one built from the
    client, the prompt and the options. *)
Lemma posted_request c description prompt opts auth w rq :
  rateLimiter c = RateLimiter description ->
  JSON_parse w (authHeaders c) = Return auth ->
  EPost rq ∈ log (snd (query c prompt opts w)) ->
  EPost rq ∈ log w \/ rq = request_of c prompt opts auth.
Proof.
  intros Hlimiter Hauth.
  destruct (query_log c description prompt opts auth w Hlimiter Hauth)
    as (n & answered & tail & -> & Htail & _).
  rewrite !elem_of_app. intros [ H | [ H | H ] ].
  - left. exact H.
  - right. eapply posted_in_request_events, H.
  - destruct Htail as [ -> | [ msg -> ] ].
    + apply elem_of_nil in H. destruct H.
    + apply list_elem_of_singleton in H. discriminate H.
Qed.

(** X3.  Malformed auth headers stop [query] before it does anything: it
    fails with the failure of [JSON.parse] and the world is as before (no
    telemetry mark, no admission by the rate limiter, no request), whatever
    the rate limiter; [completions] then returns the empty set after its
    one warning. *)
Theorem malformed_headers_fail_fast (c : t) (prompt : string) (opts : PostOptions)
  (temperature : number) (w : world) (e : exn) :
  JSON_parse w (authHeaders c) = Throw e ->
  query c prompt opts w = (Throw e, w) /\
  completions c prompt temperature w =
    (Return ∅, record (EWarn ("Failed to get completions: " +:+ message e)) w).
Proof.
  intros Hparse. split.
  - unfold query, query_request. simpl. unfold M_bind, parse. rewrite Hparse. reflexivity.
  - unfold completions, try_catch, query, query_request. simpl.
    unfold M_bind, parse. rewrite Hparse. reflexivity.
Qed.

(** A world in which the auth headers do not parse. *)
Definition unparsable : world :=
  {| JSON_parse := fun _ => Throw (SyntaxError "Unexpected end of JSON input");
     endpoint := fun _ _ => Return response_t1_t1_t2;
     log := [] |}.

Lemma malformed_headers_fail_fast_witness :
  query client "write a test" [] unparsable =
    (Throw (SyntaxError "Unexpected end of JSON input"), unparsable).
Proof.
  apply (proj1 (malformed_headers_fail_fast client "write a test" [] (Dec 0 0)
                  unparsable (SyntaxError "Unexpected end of JSON input") eq_refl)).
Defined.

(** X4.  The headers of every request start from
    [Content-Type: application/json]; the properties of the parsed auth
    headers are added and win on a clash, [Content-Type] included.  Auth
    headers that parse to [null], a number or a boolean add nothing. *)
Theorem request_headers (c : t) (description prompt : string) (opts : PostOptions)
  (auth : value) (w : world) (rq : request) :
  rateLimiter c = RateLimiter description ->
  JSON_parse w (authHeaders c) = Return auth ->
  EPost rq ∈ log (snd (query c prompt opts w)) ->
  EPost rq ∈ log w \/
  ((forall hs k, auth = VObj hs ->
      own (headers rq) k =
        match own hs k with
        | Some v => Some v
        | None => if String.eqb k "Content-Type" then Some (VStr "application/json") else None
        end) /\
   (enumerable auth = [] ->
    headers rq = [ ("Content-Type", VStr "application/json") ]) /\
   (auth = VNull \/ typeof auth = "number" \/ typeof auth = "boolean" ->
    headers rq = [ ("Content-Type", VStr "application/json") ])).
Proof.
  intros Hlimiter Hauth Hposted.
  destruct (posted_request _ _ _ _ _ _ _ Hlimiter Hauth Hposted) as [ Hold | -> ];
    [ left; exact Hold | right ].
  simpl. split; [ | split ].
  - intros hs k ->. rewrite own_spread_value. reflexivity.
  - unfold spread. intros ->. reflexivity.
  - intros [ -> | [ H | H ] ]; [ reflexivity | | ];
      destruct auth; try discriminate H; reflexivity.
Qed.

(** A world whose auth headers hold a bearer token and a content type. *)
Definition bearer : world :=
  {| JSON_parse := fun _ => Return (VObj [ ("Authorization", VStr "Bearer k");
                                           ("Content-Type", VStr "text/plain") ]);
     endpoint := fun _ _ => Return response_t1_t1_t2;
     log := [] |}.

Definition bearer_headers : value :=
  VObj [ ("Authorization", VStr "Bearer k"); ("Content-Type", VStr "text/plain") ].

Lemma bearer_posted :
  EPost (request_of client "write a test" [] bearer_headers)
  ∈ log (snd (query client "write a test" [] bearer)).
Proof.
  apply list_elem_of_In. vm_compute. right. right. left. reflexivity.
Qed.

Lemma request_headers_witness :
  own (headers (request_of client "write a test" [] bearer_headers)) "Content-Type"
    = Some (VStr "text/plain") /\
  own (headers (request_of client "write a test" [] bearer_headers)) "Authorization"
    = Some (VStr "Bearer k").
Proof.
  destruct (request_headers client "fixed rate" "write a test" [] bearer_headers
              bearer (request_of client "write a test" [] bearer_headers)
              eq_refl eq_refl bearer_posted) as [ Hold | [ Hobject _ ] ].
  - apply elem_of_nil in Hold. destruct Hold.
  - split; rewrite (Hobject _ _ eq_refl); reflexivity.
Defined.

(** X5.  Every request of a call goes to the endpoint of the client, and its
    body is an object in which a name resolves to the option of that name
    (call, else instance, else default) and otherwise to the fixed fields:
    [model], and [messages] with the system message followed by the prompt
    as the user message.  The three default options are always present;
    [model] and [messages] are the fixed ones unless an option bears their
    name, which then replaces them. *)
Theorem request_body (c : t) (description prompt : string) (opts : PostOptions)
  (auth : value) (w : world) (rq : request) :
  rateLimiter c = RateLimiter description ->
  JSON_parse w (authHeaders c) = Return auth ->
  EPost rq ∈ log (snd (query c prompt opts w)) ->
  EPost rq ∈ log w \/
  (url rq = apiEndpoint c /\
   exists fields,
     body rq = VObj fields /\
     (forall k,
        own fields k =
          match own (query_options (instanceOptions c) opts) k with
          | Some v => Some v
          | None =>
            own [ ("model", VStr (model c));
                  ("messages",
                   VArr [ VObj [ ("role", VStr "system");
                                 ("content", VStr "You are a programming assistant.") ];
                          VObj [ ("role", VStr "user"); ("content", VStr prompt) ] ]) ] k
          end) /\
     (own opts "model" = None -> own (instanceOptions c) "model" = None ->
      own fields "model" = Some (VStr (model c))) /\
     (own opts "messages" = None -> own (instanceOptions c) "messages" = None ->
      own fields "messages" =
        Some (VArr [ VObj [ ("role", VStr "system");
                            ("content", VStr "You are a programming assistant.") ];
                     VObj [ ("role", VStr "user"); ("content", VStr prompt) ] ])) /\
     (forall v, own (instanceOptions c) "model" = Some v -> own opts "model" = None ->
                own fields "model" = Some v) /\
     (own fields "max_tokens" <> None /\ own fields "temperature" <> None /\
      own fields "top_p" <> None)).
Proof.
  intros Hlimiter Hauth Hposted.
  destruct (posted_request _ _ _ _ _ _ _ Hlimiter Hauth Hposted) as [ Hold | -> ];
    [ left; exact Hold | right ].
  split; [ reflexivity | ].
  eexists. split; [ reflexivity | ].
  assert (Hfields : forall k,
    own (spread [ ("model", VStr (model c));
                  ("messages",
                   VArr [ VObj [ ("role", VStr "system");
                                 ("content", VStr "You are a programming assistant.") ];
                          VObj [ ("role", VStr "user"); ("content", VStr prompt) ] ]) ]
                (VObj (query_options (instanceOptions c) opts))) k =
    match own opts k with
    | Some v => Some v
    | None =>
      match own (instanceOptions c) k with
      | Some v => Some v
      | None =>
        match own defaultPostOptions k with
        | Some v => Some v
        | None =>
          own [ ("model", VStr (model c));
                ("messages",
                 VArr [ VObj [ ("role", VStr "system");
                               ("content", VStr "You are a programming assistant.") ];
                        VObj [ ("role", VStr "user"); ("content", VStr prompt) ] ]) ] k
        end
      end
    end).
  { intros k. unfold query_options. rewrite !own_spread.
    destruct (own opts k); [ reflexivity | ].
    destruct (own (instanceOptions c) k); [ reflexivity | ].
    destruct (own defaultPostOptions k); reflexivity. }
  split; [ intros k; apply own_spread | ].
  split; [ intros H1 H2; rewrite Hfields, H1, H2; reflexivity | ].
  split; [ intros H1 H2; rewrite Hfields, H1, H2; reflexivity | ].
  split; [ intros v H1 H2; rewrite Hfields, H2, H1; reflexivity | ].
  rewrite !Hfields.
  repeat split;
    destruct (own opts _); try discriminate;
    destruct (own (instanceOptions c) _); discriminate.
Qed.

Lemma request_body_witness :
  url (request_of client "write a test" [] bearer_headers)
    = "https://llm.example/v1/chat/completions" /\
  exists fields,
    body (request_of client "write a test" [] bearer_headers) = VObj fields /\
    own fields "model" = Some (VStr "gpt-4o").
Proof.
  destruct (request_body client "fixed rate" "write a test" [] bearer_headers
              bearer (request_of client "write a test" [] bearer_headers)
              eq_refl eq_refl bearer_posted)
    as [ Hold | (Hurl & fields & Hbody & _ & Hmodel & _) ].
  - apply elem_of_nil in Hold. destruct Hold.
  - split; [ exact Hurl | ]. exists fields. split; [ exact Hbody | ].
    apply Hmodel; reflexivity.
Defined.

(** What [completions] adds to the events of its call of [query]: nothing,
    or its warning. *)
Lemma completions_log c prompt temperature w :
  log (snd (completions c prompt temperature w)) =
    log (snd (query c prompt [ ("temperature", VNum temperature) ] w)) \/
  exists msg,
    log (snd (completions c prompt temperature w)) =
      (log (snd (query c prompt [ ("temperature", VNum temperature) ] w))
       ++ [ EWarn msg ])%list.
Proof.
  unfold completions, try_catch. simpl. unfold M_bind.
  destruct (query c prompt [ ("temperature", VNum temperature) ] w) as [ [ found | err ] w' ].
  - left. reflexivity.
  - right. eexists. reflexivity.
Qed.

(** X6.  Every request [completions] issues carries the temperature it was
    called with, whatever temperature the instance options hold; the other
    names of the body resolve to the instance options, else the defaults,
    else the fixed fields. *)
Theorem completions_temperature (c : t) (description prompt : string)
  (temperature : number) (auth : value) (w : world) (rq : request) :
  rateLimiter c = RateLimiter description ->
  JSON_parse w (authHeaders c) = Return auth ->
  EPost rq ∈ log (snd (completions c prompt temperature w)) ->
  EPost rq ∈ log w \/
  exists fields,
    body rq = VObj fields /\
    own fields "temperature" = Some (VNum temperature) /\
    (forall k, k <> "temperature" ->
       own fields k =
         match own (instanceOptions c) k with
         | Some v => Some v
         | None =>
           match own defaultPostOptions k with
           | Some v => Some v
           | None =>
             own [ ("model", VStr (model c));
                   ("messages",
                    VArr [ VObj [ ("role", VStr "system");
                                  ("content", VStr "You are a programming assistant.") ];
                           VObj [ ("role", VStr "user"); ("content", VStr prompt) ] ]) ] k
           end
         end).
Proof.
  intros Hlimiter Hauth Hposted.
  assert (Hquery : EPost rq ∈ log (snd (query c prompt [ ("temperature", VNum temperature) ] w))).
  { destruct (completions_log c prompt temperature w) as [ Hlog | [ msg Hlog ] ];
      rewrite Hlog in Hposted; [ exact Hposted | ].
    apply elem_of_app in Hposted as [ H | H ]; [ exact H | ].
    apply list_elem_of_singleton in H. discriminate H. }
  destruct (posted_request _ _ _ _ _ _ _ Hlimiter Hauth Hquery) as [ Hold | -> ];
    [ left; exact Hold | right ].
  eexists. split; [ reflexivity | ].
  split.
  - unfold query_options. rewrite !own_spread. reflexivity.
  - intros k Hk.
    assert (Hcall : own [ ("temperature", VNum temperature) ] k = None).
    { simpl. destruct (String.eqb_spec k "temperature") as [ Heq | _ ];
        [ destruct (Hk Heq) | reflexivity ]. }
    unfold query_options. rewrite !own_spread, Hcall.
    destruct (own (instanceOptions c) k); [ reflexivity | ].
    destruct (own defaultPostOptions k); reflexivity.
Qed.

(** A client whose instance options set a temperature. *)
Definition warm_client : t :=
  {| model := "gpt-4o";
     nrAttempts := 3;
     rateLimiter := RateLimiter "fixed rate";
     instanceOptions := [ ("temperature", VNum (Dec 9 (-1))); ("max_tokens", VInt 50) ];
     apiEndpoint := "https://llm.example/v1/chat/completions";
     authHeaders := "{}" |}.

Lemma warm_posted :
  EPost (request_of warm_client "write a test"
           [ ("temperature", VNum (Dec 2 (-1))) ] bearer_headers)
  ∈ log (snd (completions warm_client "write a test" (Dec 2 (-1)) bearer)).
Proof.
  apply list_elem_of_In. vm_compute. right. right. left. reflexivity.
Qed.

Lemma completions_temperature_witness :
  exists fields,
    body (request_of warm_client "write a test"
            [ ("temperature", VNum (Dec 2 (-1))) ] bearer_headers) = VObj fields /\
    own fields "temperature" = Some (VNum (Dec 2 (-1))).
Proof.
  destruct (completions_temperature warm_client "fixed rate" "write a test" (Dec 2 (-1))
              bearer_headers bearer
              (request_of warm_client "write a test"
                 [ ("temperature", VNum (Dec 2 (-1))) ] bearer_headers)
              eq_refl eq_refl warm_posted)
    as [ Hold | (fields & Hbody & Htemperature & _) ].
  - apply elem_of_nil in Hold. destruct Hold.
  - exists fields. split; assumption.
Defined.

(** ** Telemetry and attempts *)

Definition is_mark (e : event) : bool := match e with EMark _ => true | _ => false end.
Definition is_measure (e : event) : bool := match e with EMeasure _ _ => true | _ => false end.

Definition marks (w : world) : list event := List.filter is_mark (log w).
Definition measures (w : world) : list event := List.filter is_measure (log w).

Lemma marks_extend es w : marks (extend es w) = (marks w ++ List.filter is_mark es)%list.
Proof. unfold marks, extend. simpl. apply List.filter_app. Qed.

Lemma measures_extend es w :
  measures (extend es w) = (measures w ++ List.filter is_measure es)%list.
Proof. unfold measures, extend. simpl. apply List.filter_app. Qed.

Lemma rounds_no_telemetry n rq :
  List.filter is_mark (rounds n rq) = [] /\ List.filter is_measure (rounds n rq) = [].
Proof. induction n as [ | n IH ]; [ split; reflexivity | exact IH ]. Qed.

Lemma marks_request_events c prompt opts auth n answered :
  List.filter is_mark (request_events c prompt opts auth n answered)
  = [ EMark "llm-query-start" ].
Proof.
  unfold request_events. simpl. rewrite List.filter_app.
  rewrite (proj1 (rounds_no_telemetry n _)). destruct answered; reflexivity.
Qed.

Lemma measures_request_events c prompt opts auth n answered :
  List.filter is_measure (request_events c prompt opts auth n answered)
  = if answered
    then [ EMeasure (query_measure_name prompt (query_options (instanceOptions c) opts))
                    "llm-query-start" ]
    else [].
Proof.
  unfold request_events. simpl. rewrite List.filter_app.
  rewrite (proj2 (rounds_no_telemetry n _)). destruct answered; reflexivity.
Qed.

Lemma warn_skipped_extend choices w :
  exists tail, warn_skipped choices w = extend tail w /\
               (tail = [] \/ exists msg, tail = [ EWarn msg ]).
Proof.
  unfold warn_skipped. destruct (skipped_choices choices).
  - exists []. split; [ | auto ]. unfold extend. rewrite app_nil_r. destruct w; reflexivity.
  - eexists. split; [ apply record_extend | eauto ].
Qed.

(** The world after [query_response]: as before, or with one warning more. *)
Lemma query_response_world res w :
  exists tail, snd (query_response res w) = extend tail w /\
               (tail = [] \/ exists msg, tail = [ EWarn msg ]).
Proof.
  destruct (query_response_cases res w) as [ [ choices Hvalid ] | [ e Hfails ] ].
  - rewrite (query_response_valid _ _ _ Hvalid). apply warn_skipped_extend.
  - rewrite Hfails. exists []. split; [ | auto ].
    unfold extend. simpl. rewrite app_nil_r. destruct w; reflexivity.
Qed.

Lemma tail_no_telemetry (tail : list event) :
  tail = [] \/ (exists msg, tail = [ EWarn msg ]) ->
  List.filter is_mark tail = [] /\ List.filter is_measure tail = [] /\
  List.filter is_post tail = [] /\ List.filter is_admission tail = [].
Proof. intros [ -> | [ msg -> ] ]; repeat split; reflexivity. Qed.

(** X7.  A call of [query] that gets past the auth headers sets the
    telemetry mark once.  The measure is taken once as soon as the
    resilient call has returned a response, before that response is
    validated, so also for a response that [query] then rejects; when the
    resilient call fails, [query] fails with its failure and no measure is
    taken. *)
Theorem telemetry_mark_and_measure (c : t) (description prompt : string) (opts : PostOptions)
  (auth : value) (w : world) :
  rateLimiter c = RateLimiter description ->
  JSON_parse w (authHeaders c) = Return auth ->
  marks (snd (query c prompt opts w)) = (marks w ++ [ EMark "llm-query-start" ])%list /\
  (forall res w1,
     query_request c prompt opts w = (Return res, w1) ->
     measures (snd (query c prompt opts w)) =
       (measures w ++
        [ EMeasure (query_measure_name prompt (query_options (instanceOptions c) opts))
                   "llm-query-start" ])%list) /\
  (forall e w1,
     query_request c prompt opts w = (Throw e, w1) ->
     query c prompt opts w = (Throw e, w1) /\
     measures (snd (query c prompt opts w)) = measures w).
Proof.
  intros Hlimiter Hauth.
  destruct (query_request_attempts c description prompt opts auth w Hlimiter Hauth)
    as (j & _ & Hrun & _ & _).
  unfold query. simpl. unfold M_bind. rewrite Hrun.
  destruct (endpoint w (posts w + j)%nat _) as [ res | e ].
  - destruct (query_response_world res
                (extend (request_events c prompt opts auth (S j) true) w))
      as (tail & Hworld & Htail).
    destruct (tail_no_telemetry tail Htail) as (Hmarks & Hmeasures & _).
    destruct (query_response res _) as [ out w2 ]. simpl in Hworld. subst w2.
    destruct out; simpl;
      rewrite !marks_extend, !measures_extend, marks_request_events,
              measures_request_events, Hmarks, Hmeasures, !app_nil_r;
      (split; [ reflexivity | split; [ reflexivity | intros e' w1 H; discriminate H ] ]).
  - simpl. rewrite marks_extend, measures_extend, marks_request_events,
                   measures_request_events, app_nil_r.
    split; [ reflexivity | split; [ intros res w1 H; discriminate H | ] ].
    intros e' w1 H. injection H as <- <-. split; reflexivity.
Qed.

Lemma telemetry_mark_and_measure_witness :
  fst (query client "write a test" [] (answering [ Return response_204 ])) =
    Throw (Error "Request failed with status 204 and message No Content") /\
  measures (snd (query client "write a test" [] (answering [ Return response_204 ]))) =
    [ EMeasure (query_measure_name "write a test" (query_options [] [])) "llm-query-start" ].
Proof.
  split; [ vm_compute; reflexivity | ].
  apply (proj1 (proj2 (telemetry_mark_and_measure client "fixed rate" "write a test" [] (VObj [])
                         (answering [ Return response_204 ]) eq_refl eq_refl))
           response_204
           (snd (query_request client "write a test" []
                   (answering [ Return response_204 ])))).
  reflexivity.
Defined.

(** X8.  A response that [axios.post] resolves with is never retried.
    Axios resolves with a status from 200 to 299 and rejects every other
    answer, which [retry] then takes as a failed attempt.  When the first
    request is resolved, the call makes that one attempt (one admission, one
    request) whatever the budget, also when the response then fails
    validation: a resolved status other than 200 (201 to 299) makes [query]
    fail after a single request. *)
Theorem answer_not_retried (c : t) (description prompt : string) (opts : PostOptions)
  (auth : value) (w : world) (res : response) :
  rateLimiter c = RateLimiter description ->
  JSON_parse w (authHeaders c) = Return auth ->
  endpoint w (posts w) (request_of c prompt opts auth) = Return res ->
  200 <= status res < 300 ->
  fst (query_request c prompt opts w) = Return res /\
  posts (snd (query c prompt opts w)) = (posts w + 1)%nat /\
  admissions (snd (query c prompt opts w)) = (admissions w + 1)%nat /\
  (status res <> 200 ->
   fst (query c prompt opts w) =
     Throw (Error ("Request failed with status " +:+ Z_digits (status res) +:+
                   " and message " +:+ statusText res))).
Proof.
  intros Hlimiter Hauth Hanswer _.
  destruct (query_request_attempts c description prompt opts auth w Hlimiter Hauth)
    as (j & _ & Hrun & Hfail & _).
  assert (Hj : j = 0%nat).
  { destruct j as [ | j ]; [ reflexivity | ].
    destruct (Hfail 0%nat) as [ e He ]; [ lia | ].
    rewrite Nat.add_0_r, Hanswer in He. discriminate He. }
  subst j. rewrite Nat.add_0_r, Hanswer in Hrun.
  unfold query. simpl. unfold M_bind. rewrite Hrun. simpl.
  destruct (query_response_world res
              (extend (request_events c prompt opts auth 1 true) w))
    as (tail & Hworld & Htail).
  destruct (tail_no_telemetry tail Htail) as (_ & _ & Hposts & Hadmissions).
  split; [ reflexivity | ].
  rewrite Hworld, !posts_extend, !admissions_extend, posts_request_events,
          admissions_request_events, Hposts, Hadmissions. simpl.
  split; [ lia | split; [ lia | ] ].
  intros Hstatus. unfold query_response. apply Z.eqb_neq in Hstatus.
  rewrite Hstatus. reflexivity.
Qed.

Lemma answer_not_retried_witness :
  posts (snd (query client "write a test" [] (answering [ Return response_204 ]))) = 1%nat /\
  fst (query client "write a test" [] (answering [ Return response_204 ])) =
    Throw (Error "Request failed with status 204 and message No Content").
Proof.
  destruct (answer_not_retried client "fixed rate" "write a test" [] (VObj [])
              (answering [ Return response_204 ]) response_204 eq_refl eq_refl eq_refl)
    as (_ & Hposts & _ & Hfails).
  - simpl. lia.
  - split; [ exact Hposts | ].
    rewrite Hfails; [ reflexivity | discriminate ].
Defined.

(** ** Bodies that are no objects *)

Lemma own_app (ps qs : props) k :
  own (ps ++ qs)%list k = match own ps k with Some v => Some v | None => own qs k end.
Proof.
  induction ps as [ | [k0 v0] ps IH ]; simpl; [ reflexivity | ].
  destruct (String.eqb k k0); [ reflexivity | exact IH ].
Qed.

Lemma own_imap {A} (name : nat -> string) (f : A -> value) (l : list A) k :
  (forall i, String.eqb k (name i) = false) ->
  own (imap (fun i x => (name i, f x)) l) k = None.
Proof.
  revert name. induction l as [ | x l IH ]; intros name Hname; simpl; [ reflexivity | ].
  rewrite Hname. apply (IH (fun i => name (S i))). intros i. apply Hname.
Qed.

(** The decimal name of an index starts with a digit. *)
Lemma nat_digits_head i :
  exists c rest, nat_digits i = String c rest /\
                 (48 <= N_of_ascii c <= 57)%N.
Proof.
  unfold nat_digits, NilZero.string_of_uint.
  destruct (Nat.to_uint i); simpl; eexists; eexists; (split; [ reflexivity | ]);
    vm_compute; split; discriminate.
Qed.

Lemma not_an_index k c rest :
  k = String c rest -> (57 < N_of_ascii c)%N ->
  forall i, String.eqb k (nat_digits i) = false.
Proof.
  intros -> Hc i. destruct (nat_digits_head i) as (d & more & -> & Hd).
  simpl. destruct (Ascii.eqb_spec c d) as [ -> | _ ]; [ lia | reflexivity ].
Qed.

(** A value that is no object has no property [error] and no property
    [choices]. *)
Lemma member_non_object v :
  (forall fields, v <> VObj fields) ->
  member v "error" = VUndefined /\ member v "choices" = VUndefined.
Proof.
  intros Hv. unfold member.
  destruct v as [ | | b | n | s | items | fields ]; try (split; reflexivity).
  - simpl. unfold indexed. rewrite !own_app, !own_imap; [ split; reflexivity | | ];
      eapply not_an_index; try reflexivity; vm_compute; reflexivity.
  - simpl. unfold indexed. rewrite !own_app, !own_imap; [ split; reflexivity | | ];
      eapply not_an_index; try reflexivity; vm_compute; reflexivity.
  - destruct (Hv fields). reflexivity.
Qed.

(** X9.  A body that is present but no object (a text that was not JSON, a
    top-level array, a number, [true]) has neither [error] nor [choices]:
    with status 200, [query] fails on the [choices] check, reporting the
    type [undefined]. *)
Theorem non_object_body (c : t) (prompt : string) (opts : PostOptions)
  (w w' : world) (res : response) :
  query_request c prompt opts w = (Return res, w') ->
  status res = 200 ->
  truthy (data res) = true ->
  (forall fields, data res <> VObj fields) ->
  query c prompt opts w =
    (Throw (Error "Unexpected LLM response format: expected choices array, got undefined"),
     w').
Proof.
  intros Hrequest Hstatus Hdata Hshape.
  destruct (member_non_object (data res) Hshape) as [ Herror Hchoices ].
  after_request Hrequest. unfold query_response. rewrite Hstatus, Hdata. simpl.
  rewrite !Get_defined by (apply truthy_defined, Hdata).
  unfold M_bind, pure. rewrite Herror, Hchoices. reflexivity.
Qed.

(** An answer whose body is a page of text. *)
Definition response_html : response :=
  {| status := 200; statusText := "OK"; data := VStr "<html>Bad gateway</html>" |}.

Lemma non_object_body_witness :
  fst (query client "write a test" [] (answering [ Return response_html ])) =
  Throw (Error "Unexpected LLM response format: expected choices array, got undefined").
Proof.
  rewrite (non_object_body client "write a test" []
             (answering [ Return response_html ])
             (snd (query_request client "write a test" []
                     (answering [ Return response_html ])))
             response_html eq_refl eq_refl eq_refl);
    [ reflexivity | discriminate ].
Defined.

(** ** Contents that are neither strings nor arrays *)

(** X10.  When the selected content is an object that is no array,
    extraction returns its [text] field if that is a string and [undefined]
    otherwise: unlike for the parts of an array there is no fallback to a
    [content] field.  A selected content that is a number or a boolean
    extracts to [undefined]. *)
Theorem object_content (choice : value) :
  (forall fields,
     select_content choice = Return (VObj fields) ->
     extractChoiceText choice =
       Return (match own fields "text" with
               | Some (VStr s) => Some s
               | _ => None
               end)) /\
  (forall fields s,
     select_content choice = Return (VObj fields) ->
     own fields "text" = None -> own fields "content" = Some (VStr s) ->
     extractChoiceText choice = Return None /\
     extractChoiceText (VObj [ ("content", VArr [ VObj fields ]) ]) = Return
       (if String.eqb s EmptyString then None else Some s)) /\
  (forall v,
     select_content choice = Return v ->
     typeof v = "number" \/ typeof v = "boolean" ->
     extractChoiceText choice = Return None).
Proof.
  rewrite select_content_selected, extractChoiceText_text_of. unfold text_of.
  split; [ | split ].
  - intros fields H. injection H as ->. unfold member. simpl.
    destruct (own fields "text") as [ [ | | | | | | ] | ]; reflexivity.
  - intros fields s H Htext Hcontent. injection H as ->. unfold member. simpl.
    rewrite Htext. split; [ reflexivity | ].
    rewrite extractChoiceText_text_of. unfold text_of, selected, or_else, member. simpl.
    unfold fragments, member. simpl. rewrite Htext, Hcontent. simpl.
    reflexivity.
  - intros v H Htype. injection H as ->.
    destruct v; destruct Htype as [ Htype | Htype ]; try discriminate Htype; reflexivity.
Qed.

Lemma object_content_witness :
  extractChoiceText (VObj [ ("message", VObj [ ("content", VObj [ ("content", VStr "t") ]) ]) ])
    = Return None.
Proof.
  apply (proj1 (proj1 (proj2 (object_content
           (VObj [ ("message", VObj [ ("content", VObj [ ("content", VStr "t") ]) ]) ])))
           [ ("content", VStr "t") ] "t" eq_refl eq_refl eq_refl)).
Defined.

(** ** The result as a function of the texts *)





(** ** The snapshot in the diagnostic *)

Lemma slice0_prefix n s :
  exists rest, s = slice0 n s +:+ rest /\
               String.length (slice0 n s) = Nat.min n (String.length s).
Proof.
  unfold slice0. revert s. induction n as [ | n IH ]; intros [ | ch s ]; simpl.
  - exists EmptyString. split; reflexivity.
  - exists (String ch s). split; reflexivity.
  - exists EmptyString. split; reflexivity.
  - destruct (IH s) as (rest & Hrest & Hlength). exists rest. split.
    + change (String ch s = String ch (String.substring 0 n s +:+ rest)).
      f_equal. exact Hrest.
    + f_equal. exact Hlength.
Qed.

(** X12.  The diagnostic of [query] shows the JSON text of the first skipped
    choice up to its 500th character: the whole text when it has at most 500
    characters, its first 500 otherwise; it also reports how many choices
    were skipped. *)
Theorem diagnostic_snapshot (c : t) (prompt : string) (opts : PostOptions)
  (w w' : world) (res : response) (choices others : list value)
  (first : value) (text : string) :
  query_request c prompt opts w = (Return res, w') ->
  valid res choices ->
  skipped_choices choices = first :: others ->
  JSON_stringify first = Some text ->
  exists shown rest,
    text = shown +:+ rest /\
    String.length shown = Nat.min 500 (String.length text) /\
    log (snd (query c prompt opts w)) =
      (log w' ++
       [ EWarn ("Warning: skipped " +:+ nat_digits (S (length others)) +:+
                " LLM choice(s) with no text content. Example: " +:+ shown) ])%list.
Proof.
  intros Hrequest Hvalid Hskipped Htext.
  destruct (slice0_prefix 500 text) as (rest & Hrest & Hlength).
  exists (slice0 500 text), rest. split; [ exact Hrest | split; [ exact Hlength | ] ].
  rewrite (query_valid _ _ _ _ _ _ _ Hrequest Hvalid). simpl.
  unfold warn_skipped. rewrite Hskipped. simpl. rewrite Htext. reflexivity.
Qed.

Lemma diagnostic_snapshot_witness :
  exists shown rest,
    default EmptyString (JSON_stringify (VObj [ ("finish_reason", VStr "length") ]))
      = shown +:+ rest /\
    String.length shown = 26%nat /\
    warnings (snd (query client "write a test" []
                     (answering [ Return response_three_texts ]))) =
      [ EWarn ("Warning: skipped 1 LLM choice(s) with no text content. Example: "
               +:+ shown) ].
Proof.
  destruct (diagnostic_snapshot client "write a test" []
              (answering [ Return response_three_texts ])
              (snd (query_request client "write a test" []
                      (answering [ Return response_three_texts ])))
              response_three_texts
              [ VObj [ ("message", VObj [ ("content", VStr "t1") ]) ];
                VObj [ ("message", VObj [ ("content", VStr "t1") ]) ];
                VObj [ ("text", VStr "t2") ];
                VObj [ ("finish_reason", VStr "length") ] ]
              []
              (VObj [ ("finish_reason", VStr "length") ])
              (default EmptyString (JSON_stringify (VObj [ ("finish_reason", VStr "length") ])))
              eq_refl (conj eq_refl (conj eq_refl (conj eq_refl eq_refl)))
              eq_refl eq_refl)
    as (shown & rest & Htext & Hlength & Hlog).
  exists shown, rest. split; [ exact Htext | split; [ exact Hlength | ] ].
  unfold warnings. rewrite Hlog. reflexivity.
Defined.

(** ** From the environment to the requests *)

Lemma constructor_inv model nrAttempts rateLimiter instanceOptions p c p' :
  constructor model nrAttempts rateLimiter instanceOptions p = Done c p' ->
  exists endpoint headers,
    provided p "TESTPILOT_LLM_API_ENDPOINT" endpoint /\
    provided p "TESTPILOT_LLM_AUTH_HEADERS" headers /\
    c = {| ChatModel.model := model;
           ChatModel.nrAttempts := nrAttempts;
           ChatModel.rateLimiter := rateLimiter;
           ChatModel.instanceOptions := default [] instanceOptions;
           ChatModel.apiEndpoint := endpoint;
           ChatModel.authHeaders := headers |}.
Proof.
  intros Hrun.
  destruct (provided_or_missing p "TESTPILOT_LLM_API_ENDPOINT") as [ [ endpoint Hendpoint ] | Hmissing ].
  - destruct (provided_or_missing p "TESTPILOT_LLM_AUTH_HEADERS") as [ [ headers Hheaders ] | Hmissing ].
    + rewrite (constructor_provided _ _ _ _ _ _ _ Hendpoint Hheaders) in Hrun.
      injection Hrun as <- _. eauto.
    + rewrite (constructor_missing_headers _ _ _ _ _ _ Hendpoint Hmissing) in Hrun.
      discriminate Hrun.
  - rewrite (constructor_missing_endpoint _ _ _ _ _ Hmissing) in Hrun. discriminate Hrun.
Qed.

(** A call of [query] issues at least one request and no more than its
    budget. *)
Lemma query_posts_bound c description prompt opts auth w :
  rateLimiter c = RateLimiter description ->
  JSON_parse w (authHeaders c) = Return auth ->
  (posts w < posts (snd (query c prompt opts w)) <= posts w + Nat.max 1 (nrAttempts c))%nat.
Proof.
  intros Hlimiter Hauth.
  destruct (query_request_attempts c description prompt opts auth w Hlimiter Hauth)
    as (j & Hj & Hrun & _ & _).
  unfold query. simpl. unfold M_bind. rewrite Hrun.
  destruct (endpoint w (posts w + j)%nat _) as [ res | e ].
  - destruct (query_response_world res
                (extend (request_events c prompt opts auth (S j) true) w))
      as (tail & Hworld & Htail).
    destruct (tail_no_telemetry tail Htail) as (_ & _ & Hposts & _).
    rewrite Hworld, !posts_extend, posts_request_events, Hposts. simpl. lia.
  - simpl. rewrite posts_extend, posts_request_events. lia.
Qed.

(** X13.  A client constructed in a process sends its requests where the
    environment says: every request of [query] goes to the value of
    [TESTPILOT_LLM_API_ENDPOINT], which is not empty, with the headers
    parsed from the value of [TESTPILOT_LLM_AUTH_HEADERS] laid over
    [Content-Type: application/json]; and a call issues at least one
    request and at most as many as the attempts the constructor was given
    (one when it was given none). *)
Theorem constructed_client_requests (model description prompt : string)
  (nrAttempts : nat) (instanceOptions : option PostOptions) (opts : PostOptions)
  (p p' : process) (c : t) (auth : value) (w : world) :
  constructor model nrAttempts (RateLimiter description) instanceOptions p = Done c p' ->
  JSON_parse w (authHeaders c) = Return auth ->
  (forall rq,
     EPost rq ∈ log (snd (query c prompt opts w)) ->
     EPost rq ∈ log w \/
     (env p !! "TESTPILOT_LLM_API_ENDPOINT" = Some (url rq) /\
      url rq <> EmptyString /\
      (exists text, env p !! "TESTPILOT_LLM_AUTH_HEADERS" = Some text /\
                    JSON_parse w text = Return auth) /\
      headers rq = spread [ ("Content-Type", VStr "application/json") ] auth)) /\
  (posts w < posts (snd (query c prompt opts w)) <= posts w + Nat.max 1 nrAttempts)%nat.
Proof.
  intros Hconstructed Hauth.
  destruct (constructor_inv _ _ _ _ _ _ _ Hconstructed)
    as (endpoint & text & [ Hendpoint Hnonempty ] & [ Htext _ ] & Hc).
  assert (Hlimiter : rateLimiter c = RateLimiter description) by (rewrite Hc; reflexivity).
  assert (Hurl : apiEndpoint c = endpoint) by (rewrite Hc; reflexivity).
  assert (Hheaders : authHeaders c = text) by (rewrite Hc; reflexivity).
  assert (Hbudget : ChatModel.nrAttempts c = nrAttempts) by (rewrite Hc; reflexivity).
  split.
  - intros rq Hposted.
    destruct (posted_request c description prompt opts auth w rq Hlimiter Hauth Hposted)
      as [ Hold | -> ]; [ left; exact Hold | right ].
    simpl. rewrite Hurl.
    split; [ exact Hendpoint | split; [ exact Hnonempty | split ] ];
      [ | reflexivity ].
    exists text. rewrite <- Hheaders at 2. split; [ exact Htext | exact Hauth ].
  - rewrite <- Hbudget.
    apply (query_posts_bound c description prompt opts auth w Hlimiter Hauth).
Qed.

Lemma constructed_client_requests_witness :
  (posts bearer < posts (snd (query client "write a test" [] bearer)) <= posts bearer + 3)%nat.
Proof.
  apply (proj2 (constructed_client_requests "gpt-4o" "fixed rate" "write a test" 3 None []
                  configured
                  (write (ConsoleLog (using_line "gpt-4o" 3 (RateLimiter "fixed rate")
                                        "https://llm.example/v1/chat/completions"))
                     configured)
                  client bearer_headers bearer
                  (constructor_provided "gpt-4o" 3 (RateLimiter "fixed rate") None configured
                     "https://llm.example/v1/chat/completions" "{}"
                     (conj eq_refl (fun H => eq_ind "https://llm.example/v1/chat/completions"
                                               (fun s => match s with EmptyString => False | _ => True end)
                                               I _ H))
                     (conj eq_refl (fun H => eq_ind "{}"
                                               (fun s => match s with EmptyString => False | _ => True end)
                                               I _ H)))
                  eq_refl)).
Defined.

(** ** Choices that are no objects *)

Lemma member_non_object_name v k c rest :
  (forall fields, v <> VObj fields) ->
  k = String c rest -> (57 < N_of_ascii c)%N -> String.eqb k "length" = false ->
  member v k = VUndefined.
Proof.
  intros Hv Hk Hc Hlength. unfold member.
  destruct v as [ | | b | n | s | items | fields ]; try reflexivity.
  - simpl. unfold indexed. rewrite own_app, own_imap by (eapply not_an_index; eassumption).
    simpl. rewrite Hlength. reflexivity.
  - simpl. unfold indexed. rewrite own_app, own_imap by (eapply not_an_index; eassumption).
    simpl. rewrite Hlength. reflexivity.
  - destruct (Hv fields). reflexivity.
Qed.

(** X14.  A choice that is no object (a plain string, a number, [null], an
    array) has no text: extraction returns [undefined] for it, so that
    [query] skips it; a response whose choices are plain strings yields the
    empty set. *)
Theorem non_object_choice (choice : value) :
  (forall fields, choice <> VObj fields) ->
  extractChoiceText choice = Return None /\
  (forall (c : t) (prompt : string) (opts : PostOptions) (w w' : world)
          (res : response) (choices : list value),
     query_request c prompt opts w = (Return res, w') ->
     valid res choices ->
     Forall (fun ch => forall fields, ch <> VObj fields) choices ->
     fst (query c prompt opts w) = Return ∅).
Proof.
  assert (Hnone : forall ch, (forall fields, ch <> VObj fields) -> text_of ch = None).
  { intros ch Hch. unfold text_of, selected.
    rewrite (member_non_object_name ch "message" _ _ Hch eq_refl) by reflexivity.
    rewrite (member_non_object_name ch "delta" _ _ Hch eq_refl) by reflexivity.
    rewrite (member_non_object_name ch "text" _ _ Hch eq_refl) by reflexivity.
    rewrite (member_non_object_name ch "content" _ _ Hch eq_refl) by reflexivity.
    reflexivity. }
  intros Hchoice. split.
  - rewrite extractChoiceText_text_of, (Hnone _ Hchoice). reflexivity.
  - intros c prompt opts w w' res choices Hrequest Hvalid Hall.
    rewrite (query_valid _ _ _ _ _ _ _ Hrequest Hvalid). simpl. f_equal.
    assert (Hrecovered : recovered choices = []).
    { clear - Hall Hnone. unfold recovered.
      induction Hall as [ | ch rest Hch _ IH ]; [ reflexivity | ].
      simpl. rewrite extracted_text_of, (Hnone _ Hch). exact IH. }
    rewrite Hrecovered. reflexivity.
Qed.

Lemma non_object_choice_witness :
  extractChoiceText (VStr "def test(): pass") = Return None.
Proof.
  apply (proj1 (non_object_choice (VStr "def test(): pass")
                  (fun fields H => eq_ind (VStr "def test(): pass")
                                     (fun v => match v with VObj _ => False | _ => True end)
                                     I _ H))).
Defined.

(** ** Success, failure and warnings *)

(** X15.  [query] returns a set only for a response that passes the four
    checks: whenever it returns, the resilient call had returned a response
    with status 200, a truthy body, no truthy [error] and an array of
    [choices], and the set holds exactly the texts extracted from those
    choices. *)
Theorem success_means_valid (c : t) (prompt : string) (opts : PostOptions)
  (w w'' : world) (found : gset string) :
  query c prompt opts w = (Return found, w'') ->
  exists res w' choices,
    query_request c prompt opts w = (Return res, w') /\
    status res = 200 /\ truthy (data res) = true /\
    truthy (member (data res) "error") = false /\
    member (data res) "choices" = VArr choices /\
    (forall text, text ∈ found <->
       exists choice, choice ∈ choices /\ extractChoiceText choice = Return (Some text)).
Proof.
  unfold query. simpl. unfold M_bind.
  destruct (query_request c prompt opts w) as [ [ res | e ] w' ]; [ | discriminate ].
  intros Hresponse. exists res, w'.
  destruct (query_response_cases res w') as [ [ choices Hvalid ] | [ e Hfails ] ].
  - exists choices. rewrite (query_response_valid _ _ _ Hvalid) in Hresponse.
    injection Hresponse as <- _.
    destruct Hvalid as (Hstatus & Hdata & Herror & Hchoices).
    repeat (split; [ assumption || reflexivity | ]).
    intros text. rewrite elem_of_list_to_set. apply elem_of_recovered.
  - rewrite Hfails in Hresponse. discriminate Hresponse.
Qed.

Lemma success_means_valid_witness :
  exists res w' choices,
    query_request client "write a test" [] (answering [ Return response_t1_t1_t2 ])
      = (Return res, w') /\
    status res = 200 /\
    member (data res) "choices" = VArr choices.
Proof.
  destruct (success_means_valid client "write a test" []
              (answering [ Return response_t1_t1_t2 ])
              (snd (query client "write a test" [] (answering [ Return response_t1_t1_t2 ])))
              ({[ "t1" ]} ∪ {[ "t2" ]}))
    as (res & w' & choices & Hrequest & Hstatus & _ & _ & Hchoices & _).
  - vm_compute. reflexivity.
  - exists res, w', choices. auto.
Defined.

Lemma completions_run c prompt temperature w :
  completions c prompt temperature w =
    match query c prompt [ ("temperature", VNum temperature) ] w with
    | (Return found, w') => (Return found, w')
    | (Throw err, w') =>
      (Return ∅, record (EWarn ("Failed to get completions: " +:+ message err)) w')
    end.
Proof.
  unfold completions, try_catch. simpl. unfold M_bind.
  destruct (query c prompt [ ("temperature", VNum temperature) ] w) as [ [ found | err ] w' ].
  - rewrite copy_set. reflexivity.
  - reflexivity.
Qed.

(** X16.  When every attempt of the budget is refused, [completions] returns
    the empty set after exactly [nrAttempts] requests, and its warning
    carries the message of the last refusal. *)
Theorem completions_exhaustion (c : t) (description prompt : string)
  (temperature : number) (auth : value) (w : world) (failure : nat -> exn) :
  rateLimiter c = RateLimiter description ->
  JSON_parse w (authHeaders c) = Return auth ->
  (1 <= nrAttempts c)%nat ->
  (forall i : nat, (i < nrAttempts c)%nat ->
     endpoint w (posts w + i)%nat
       (request_of c prompt [ ("temperature", VNum temperature) ] auth)
     = Throw (failure i)) ->
  fst (completions c prompt temperature w) = Return ∅ /\
  warnings (snd (completions c prompt temperature w)) =
    (warnings w ++
     [ EWarn ("Failed to get completions: " +:+
              message (failure (nrAttempts c - 1)%nat)) ])%list /\
  posts (snd (completions c prompt temperature w)) = (posts w + nrAttempts c)%nat.
Proof.
  intros Hlimiter Hauth Hbudget Hall.
  destruct (query_request_attempts c description prompt
              [ ("temperature", VNum temperature) ] auth w Hlimiter Hauth)
    as (j & Hj & Hrun & _ & Hstop).
  assert (Hlast : j = (nrAttempts c - 1)%nat).
  { destruct (Nat.eq_dec j (nrAttempts c - 1)%nat) as [ Heq | Hne ]; [ exact Heq | ].
    destruct Hstop as [ res' Hres' ]; [ lia | ].
    rewrite Hall in Hres' by lia. discriminate Hres'. }
  subst j. rewrite Hall in Hrun by lia.
  rewrite completions_run. unfold query. simpl. unfold M_bind. rewrite Hrun. simpl.
  split; [ reflexivity | ].
  rewrite !record_extend, !warnings_extend, !posts_extend, warnings_request_events,
          posts_request_events. simpl.
  split; [ rewrite app_nil_r; reflexivity | lia ].
Qed.

(** An endpoint that refuses every connection. *)
Definition refusing : world := answering [].

Lemma completions_exhaustion_witness :
  fst (completions client "write a test" (Dec 0 0) refusing) = Return ∅ /\
  warnings (snd (completions client "write a test" (Dec 0 0) refusing)) =
    [ EWarn "Failed to get completions: connect ECONNREFUSED" ] /\
  posts (snd (completions client "write a test" (Dec 0 0) refusing)) = 3%nat.
Proof.
  apply (completions_exhaustion client "fixed rate" "write a test" (Dec 0 0) (VObj [])
           refusing (fun _ => Error "connect ECONNREFUSED") eq_refl eq_refl).
  - simpl. lia.
  - intros i _. reflexivity.
Defined.

(** X17.  A call of [completions] emits at most one warning: the diagnostic
    of skipped choices when [query] returns, or the failure warning when
    [query] fails, never both. *)
Theorem at_most_one_warning (c : t) (description prompt : string)
  (temperature : number) (w : world) :
  rateLimiter c = RateLimiter description ->
  exists tail,
    warnings (snd (completions c prompt temperature w)) = (warnings w ++ tail)%list /\
    (tail = [] \/ exists msg, tail = [ EWarn msg ]) /\
    (forall err w',
       query c prompt [ ("temperature", VNum temperature) ] w = (Throw err, w') ->
       tail = [ EWarn ("Failed to get completions: " +:+ message err) ]).
Proof.
  intros Hlimiter. rewrite completions_run.
  destruct (query c prompt [ ("temperature", VNum temperature) ] w)
    as [ [ found | err ] w' ] eqn:Hquery.
  - simpl.
    assert (Hlog : exists tail,
               warnings w' = (warnings w ++ tail)%list /\
               (tail = [] \/ exists msg, tail = [ EWarn msg ])).
    { destruct (JSON_parse w (authHeaders c)) as [ auth | e ] eqn:Hauth.
      - destruct (query_log c description prompt [ ("temperature", VNum temperature) ]
                    auth w Hlimiter Hauth) as (n & answered & tail & Hlog & Htail & _).
        rewrite Hquery in Hlog. cbn [snd] in Hlog.
        exists tail. split; [ | exact Htail ].
        unfold warnings. rewrite Hlog, !List.filter_app, warnings_request_events.
        destruct Htail as [ -> | [ msg -> ] ]; reflexivity.
      - unfold query, query_request in Hquery. simpl in Hquery.
        unfold M_bind, parse in Hquery. rewrite Hauth in Hquery. discriminate Hquery. }
    destruct Hlog as (tail & Hwarnings & Htail). exists tail.
    split; [ exact Hwarnings | split; [ exact Htail | ] ].
    intros err w1 H. discriminate H.
  - simpl. eexists. rewrite record_extend, warnings_extend.
    rewrite (query_failure_silent _ _ _ _ _ _ _ Hlimiter Hquery). simpl.
    split; [ reflexivity | split; [ eauto | ] ].
    intros err' w1 H. injection H as <- _. reflexivity.
Qed.

Lemma at_most_one_warning_witness :
  exists tail,
    warnings (snd (completions client "write a test" (Dec 0 0)
                     (answering [ Return response_three_texts ]))) = tail /\
    (tail = [] \/ exists msg, tail = [ EWarn msg ]).
Proof.
  destruct (at_most_one_warning client "fixed rate" "write a test" (Dec 0 0)
              (answering [ Return response_three_texts ]) eq_refl)
    as (tail & Hwarnings & Htail & _).
  exists tail. split; [ exact Hwarnings | exact Htail ].
Defined.
